(** * Endpoint registration of skype-http: [src/lib/helpers/register-endpoint.ts]

    A shallow embedding of [registerEndpoint] and
    [readSetRegistrationTokenHeader], and the properties of the registration
    protocol proved about it.

    Conventions of the embedding:
    - a JavaScript string is a [string] whose characters are code units
      below 256;
    - an object used as a dictionary ([res.headers], the [Map] returned by
      [parseHeaderParams]) is a [gmap string string]; a missing key reads as
      [None], the embedding of [undefined];
    - the numbers that occur ([parseInt]'s result and its product with 1000)
      are integral IEEE doubles, see [number];
    - a hostname is a [Hostname]: the variable [messagesHostname] is
      assigned the host that [url.parse] reads in a Location, which is
      [null] when the Location has none;
    - a thrown [Incident] is the [Throw] case of [Result];
    - the network and the clock are an explicit [World] threaded through the
      calls of [io.post]. *)

From Stdlib Require Import ZArith Ascii String List Bool Lia SpecFloat.
From stdpp Require Import base option list strings gmap pretty.

Local Open Scope string_scope.
Local Open Scope list_scope.
Local Open Scope Z_scope.

(** ** JavaScript numbers, [parseInt] and [Date] *)

(** The integral fragment of the IEEE 754 doubles, closed under what the
    source computes with them: [parseInt(_, 10)] and [1000 * _]. *)
Inductive number : Type :=
| NaN
| Infinity (negative : bool)
| NegZero
| Finite (z : Z).

(** A magnitude that rounds to 2^1024 or more has no finite double. *)
Definition DOUBLE_OVERFLOW : Z := 2 ^ 1024.

(** Nearest double of an integer, ties to even: the 53 leading bits are kept,
    and a magnitude that rounds to 2^1024 or more is infinite. *)
Definition roundInt (z : Z) : number :=
  let a := Z.abs z in
  let k := Z.log2 a - 52 in
  let r :=
    if k <=? 0 then a
    else
      let q := a / 2 ^ k in
      let rem := a mod 2 ^ k in
      let half := 2 ^ (k - 1) in
      (if (half <? rem) || ((half =? rem) && Z.odd q) then q + 1 else q) * 2 ^ k in
  if DOUBLE_OVERFLOW <=? r then Infinity (z <? 0) else Finite (Z.sgn z * r).

(** The doubles of Stdlib's [SpecFloat], to compare [roundInt] with: the
    double nearest to an integer, and the [number] of an integral double. *)
Definition doubleOfZ (z : Z) : spec_float := binary_normalize 53 1024 z 0 false.

Definition ofSpecFloat (f : spec_float) : number :=
  match f with
  | S754_zero s => if s then NegZero else Finite 0
  | S754_infinity s => Infinity s
  | S754_nan => NaN
  | S754_finite s m e =>
      let v := if 0 <=? e then Z.pos m * 2 ^ e else Z.pos m / 2 ^ (- e) in
      Finite (if s then - v else v)
  end.

Definition isNegative (x : number) : bool :=
  match x with
  | NaN => false
  | Infinity s => s
  | NegZero => true
  | Finite z => z <? 0
  end.

Definition isZero (x : number) : bool :=
  match x with
  | NegZero => true
  | Finite z => z =? 0
  | _ => false
  end.

(** [a * b] on doubles. *)
Definition mul (a b : number) : number :=
  let s := xorb (isNegative a) (isNegative b) in
  match a, b with
  | NaN, _ | _, NaN => NaN
  | Infinity _, y => if isZero y then NaN else Infinity s
  | x, Infinity _ => if isZero x then NaN else Infinity s
  | NegZero, _ | _, NegZero => if s then NegZero else Finite 0
  | Finite x, Finite y =>
      if x * y =? 0 then (if s then NegZero else Finite 0) else roundInt (x * y)
  end.

Definition charCode (c : ascii) : Z := Z.of_N (N_of_ascii c).

(** White space and line terminators, as [parseInt] skips them. *)
Definition isStrWhiteSpaceChar (c : ascii) : bool :=
  let n := charCode c in
  ((9 <=? n) && (n <=? 13)) || (n =? 32) || (n =? 160).

Fixpoint trimStart (s : string) : string :=
  match s with
  | String c s' => if isStrWhiteSpaceChar c then trimStart s' else s
  | EmptyString => EmptyString
  end.

Definition digitOf (c : ascii) : option Z :=
  let n := charCode c in
  if (48 <=? n) && (n <=? 57) then Some (n - 48) else None.

Definition isDigit (c : ascii) : bool :=
  match digitOf c with Some _ => true | None => false end.

(** Value of the longest prefix of decimal digits, from accumulator [acc]. *)
Fixpoint readDigits (s : string) (acc : Z) : Z :=
  match s with
  | String c s' =>
      match digitOf c with
      | Some d => readDigits s' (10 * acc + d)
      | None => acc
      end
  | EmptyString => acc
  end.

Definition startsWithDigit (s : string) : bool :=
  match s with
  | String c _ => isDigit c
  | EmptyString => false
  end.

(** The sign that [parseInt] reads, and the rest of the string. *)
Definition readSign (s : string) : Z * string :=
  match s with
  | String "-"%char r => (-1, r)
  | String "+"%char r => (1, r)
  | _ => (1, s)
  end.

(** [parseInt(string, 10)]: leading white space is skipped, an optional sign
    is read, then the longest prefix of digits; without a digit the result
    is [NaN]. Whatever follows the digits is ignored. *)
Definition parseInt10 (input : string) : number :=
  let '(sign, rest) := readSign (trimStart input) in
  if startsWithDigit rest then
    let mathInt := readDigits rest 0 in
    if mathInt =? 0 then (if sign =? -1 then NegZero else Finite 0)
    else roundInt (sign * mathInt)
  else NaN.

(** A [Date]: a time value in milliseconds since the epoch, or the invalid
    date. *)
Inductive Date : Type :=
| InvalidDate
| DateAt (ms : Z).

Definition MAX_TIME : Z := 8640000000000000.

(** [new Date(value)] for a number: the time value is clipped. *)
Definition newDate (value : number) : Date :=
  match value with
  | NaN | Infinity _ => InvalidDate
  | NegZero => DateAt 0
  | Finite z => if Z.abs z <=? MAX_TIME then DateAt z else InvalidDate
  end.


(** ** Data model *)

(** What the variable [messagesHostname] holds while [registerEndpoint]
    runs: the string that the caller gave, or the [host] of a parsed
    Location, a string or [null]. *)
Inductive Hostname : Type :=
| NullHost
| HostName (name : string).

(** [a === b] on hostnames: [null] equals [null] only, strings are compared
    by their text. *)
Definition strictEquals (a b : Hostname) : bool :=
  match a, b with
  | NullHost, NullHost => true
  | HostName x, HostName y => String.eqb x y
  | _, _ => false
  end.

(** [RegistrationToken] of [interfaces/api/context]. [host] is what
    [registerEndpoint] passes for it, the value of [messagesHostname]. *)
Record RegistrationToken : Type := {
  value : string;
  expirationDate : Date;
  endpointId : string;
  raw : string;
  host : Hostname;
}.

(** [SkypeToken] of [interfaces/api/context]. *)
Record SkypeToken : Type := {
  skypeToken_value : string;
  skypeToken_expirationDate : Date;
}.

(** [io.Response]: [headers] is the dictionary of the response headers, its
    keys in lower case. *)
Record Response : Type := {
  statusCode : Z;
  headers : gmap string string;
  body : string;
}.

(** The part of Node's [Url] that the source reads. [None] is a [host] that
    is [undefined], which is what the source tests for; [Some NullHost] is a
    [host] that is [null], which is what [url.parse] gives for a URI
    without host. *)
Record Url : Type := {
  url_host : option Hostname;
}.

(** The double quote character, for the text of JSON values. *)
Definition dquote : string := String "034"%char EmptyString.

(** [JSON.stringify({endpointFeatures: "Agent"})] *)
Definition ENDPOINT_FEATURES_BODY : string :=
  "{" +:+ dquote +:+ "endpointFeatures" +:+ dquote +:+ ":"
      +:+ dquote +:+ "Agent" +:+ dquote +:+ "}".

(** [Store] of tough-cookie. The source hands the caller's jar on to the
    transport and never looks into it: a jar is the reference to it. *)
Inductive CookieStore : Type :=
| CookieJar (ref : positive).

(** [io.PostOptions]: the headers are an object literal, kept in the order
    of its keys. *)
Record PostOptions : Type := {
  uri : string;
  req_headers : list (string * string);
  cookies : CookieStore;
  req_body : string;
}.

(** An element of the [tries] array. *)
Record Try : Type := {
  req : PostOptions;
  res : Response;
}.

(** The causes wrapped by an [EndpointRegistrationError].

    Modelled from the spec: [UnexpectedHttpStatusError.create] and
    [MissingHeaderError.create] of [errors/http] are not among the sources;
    their incidents are taken to hold the arguments of [create], which is
    all the source passes to them (spec section 7: expected and actual
    status, the name of the missing header). *)
Inductive Cause : Type :=
| LoginRateLimitExceeded (tries : list Try)
| UnexpectedHttpStatus (response : Response) (expected : gset Z) (request : PostOptions)
| MissingHeader (response : Response) (headerName : string) (request : PostOptions)
| EndpointRedirectionsLimit (tries : list Try).

(** The incidents that the two functions throw, by name. *)
Inductive Incident : Type :=
| EndpointRegistrationError (cause : Cause) (message : string)
| ParseError (message : string)
| InvalidSetRegistrationTokenHeader (header : string) (parsed : gmap string string).

(** Outcome of a call that returns or throws. *)
Inductive Result (A : Type) : Type :=
| Return (a : A)
| Throw (e : Incident).
Arguments Return {A} a.
Arguments Throw {A} e.

(** How one pass of the loop of [registerEndpoint] ends: [continue] with a
    new hostname, or leaving the function by [return] or [throw]. *)
Inductive Step : Type :=
| Continue (messagesHostname : Hostname)
| Leave (r : Result RegistrationToken).

Definition ERROR_MESSAGE : string := "Unable to register endpoint".

(** The default value of [retries]. *)
Definition DEFAULT_RETRIES : Z := 2.

Section RegisterEndpoint.

(** The network and the clock, as the calls below see them. *)
Context {World : Type}.

(** [io.HttpIo], of which the source uses [post]: the exchange returns the
    response and the world after it. *)
Record HttpIo : Type := {
  post : PostOptions -> World -> Response * World;
}.

(** What the module imports and the sources do not hold: [consts],
    [utils], [utils/hmac-sha256], [messages-uri] and Node's [url.parse].
    [hmacSha256] takes the text of its three buffers. *)
Class Imports : Type := {
  SKYPEWEB_LOCKANDKEY_APPID : string;
  SKYPEWEB_LOCKANDKEY_SECRET : string;
  SKYPEWEB_CLIENTINFO_NAME : string;
  SKYPEWEB_CLIENTINFO_VERSION : string;
  hmacSha256 : string -> string -> string -> string;
  stringifyHeaderParams : list (string * string) -> string;
  parseHeaderParams : string -> gmap string string;
  getCurrentTime : World -> Z;
  endpoints : Hostname -> string;
  parseUri : string -> Url;
}.

Context {imports : Imports}.

Definition getLockAndKeyResponse (time : Z) : string :=
  let inputBuffer := pretty time in
  let appIdBuffer := SKYPEWEB_LOCKANDKEY_APPID in
  let secretBuffer := SKYPEWEB_LOCKANDKEY_SECRET in
  hmacSha256 inputBuffer appIdBuffer secretBuffer.

Definition CLIENT_INFO_HEADER : string :=
  stringifyHeaderParams
    [("os", "Windows"); ("osVer", "10"); ("proc", "Win64"); ("lcid", "en-us");
     ("deviceType", "1"); ("country", "n/a");
     ("clientName", SKYPEWEB_CLIENTINFO_NAME);
     ("clientVer", SKYPEWEB_CLIENTINFO_VERSION)].

Definition getLockAndKeyHeader (time : Z) : string :=
  let lockAndKeyResponse := getLockAndKeyResponse time in
  stringifyHeaderParams
    [("appId", SKYPEWEB_LOCKANDKEY_APPID); ("time", pretty time);
     ("lockAndKeyResponse", lockAndKeyResponse)].

Definition readSetRegistrationTokenHeader (hostname : Hostname) (header : string)
  : Result RegistrationToken :=
  let parsedHeader := parseHeaderParams header in
  let expiresString := parsedHeader !! "expires" in
  let registrationTokenValue := parsedHeader !! "registrationToken" in
  let endpointId := parsedHeader !! "endpointId" in
  match registrationTokenValue, expiresString, endpointId with
  | Some registrationTokenValue, Some expiresString, Some endpointId =>
      (* Timestamp in seconds since UNIX epoch *)
      let expires := parseInt10 expiresString in
      Return {| value := registrationTokenValue;
                expirationDate := newDate (mul (Finite 1000) expires);
                endpointId := endpointId;
                raw := header;
                host := hostname |}
  | _, _, _ =>
      Throw (InvalidSetRegistrationTokenHeader header parsedHeader)
  end.

Definition registrationError (cause : Cause) : Step :=
  Leave (Throw (EndpointRegistrationError cause ERROR_MESSAGE)).

(** What the caller and the statements below observe of a call: its
    result, the [tries] array when the call ends, and the world then. *)
Record Run : Type := {
  result : Result RegistrationToken;
  attempts : list Try;
  world : World;
}.

Section Protocol.

Variable io : HttpIo.
Variable cookies_arg : CookieStore.
Variable skypeToken : SkypeToken.

(** The request of one pass of the loop, built for the current hostname
    at the current time. *)
Definition buildRequest (messagesHostname : Hostname) (w : World) : PostOptions :=
  {| uri := endpoints messagesHostname;
     req_headers :=
       [("LockAndKey", getLockAndKeyHeader (getCurrentTime w));
        ("ClientInfo", CLIENT_INFO_HEADER);
        ("Authentication",
          stringifyHeaderParams [("skypetoken", skypeToken_value skypeToken)]);
        ("BehaviorOverride", "redirectAs404")];
     cookies := cookies_arg;
     req_body := ENDPOINT_FEATURES_BODY |}.

(** What the loop body does with the response [res] to [req], lines 88
    to 126; [tries] already holds the two. *)
Definition classify (messagesHostname : Hostname) (tries : list Try)
  (req : PostOptions) (res : Response) : Step :=
  if statusCode res =? 429 then
    registrationError (LoginRateLimitExceeded tries)
  else
    let expectedStatusCode : gset Z := {[ 201; 301 ]} in
    if negb (bool_decide (statusCode res ∈ expectedStatusCode)) then
      registrationError (UnexpectedHttpStatus res expectedStatusCode req)
    else
      match headers res !! "location" with
      | None => registrationError (MissingHeader res "Location" req)
      | Some locationHeader =>
          let location := parseUri locationHeader in
          match url_host location with
          | None => Leave (Throw (ParseError "Expected location to define host"))
          | Some location_host =>
              (* Handle redirections, up to `retry` times *)
              if negb (strictEquals location_host messagesHostname) then
                Continue location_host
              else
                match headers res !! "set-registrationtoken" with
                | None =>
                    registrationError (MissingHeader res "Set-Registrationtoken" req)
                | Some registrationTokenHeader =>
                    Leave (readSetRegistrationTokenHeader
                             messagesHostname registrationTokenHeader)
                end
          end
      end.

(** The loop body, lines 70 to 126: the step, the [tries] array and the
    world after it. *)
Definition iteration (messagesHostname : Hostname) (tries : list Try) (w : World)
  : Step * list Try * World :=
  let req := buildRequest messagesHostname w in
  let '(res, w) := post io req w in
  let tries := tries ++ [{| req := req; res := res |}] in
  (classify messagesHostname tries req res, tries, w).

(** The [for] loop with [passes] passes left. Its counter [tryCount] is
    read by the loop condition only, so the loop is its body iterated;
    leaving the loop by its condition throws the last incident of the
    function (lines 129 to 131). *)
Fixpoint loop (passes : nat) (messagesHostname : Hostname) (tries : list Try)
  (w : World) : Run :=
  match passes with
  | O =>
      {| result := Throw (EndpointRegistrationError
                            (EndpointRedirectionsLimit tries) ERROR_MESSAGE);
         attempts := tries;
         world := w |}
  | S passes' =>
      match iteration messagesHostname tries w with
      | (Continue messagesHostname', tries', w') =>
          loop passes' messagesHostname' tries' w'
      | (Leave r, tries', w') =>
          {| result := r; attempts := tries'; world := w' |}
      end
  end.

(** [tryCount] runs from 0 while [tryCount <= retries]: [retries + 1]
    passes, none when [retries] is negative. The parameter
    [messagesHostname] is the variable that line 114 assigns to. *)
Definition registerEndpoint (messagesHostname : Hostname) (retries : Z)
  (w : World) : Run :=
  loop (Z.to_nat (retries + 1)) messagesHostname [] w.

End Protocol.

End RegisterEndpoint.

Arguments HttpIo World : clear implicits.
Arguments Imports World : clear implicits.
Arguments Run World : clear implicits.

(** ** The imported helpers, and a scripted transport *)

Module utils.

Fixpoint trimEnd (s : string) : string :=
  match s with
  | String c s' =>
      match trimEnd s' with
      | EmptyString => if isStrWhiteSpaceChar c then EmptyString else String c EmptyString
      | t => String c t
      end
  | EmptyString => EmptyString
  end.

Definition trim (s : string) : string := trimEnd (trimStart s).

(** [s.split(sep)] for a separator of one character. *)
Fixpoint split (sep : ascii) (s : string) : list string :=
  match s with
  | String c s' =>
      if Ascii.eqb c sep then EmptyString :: split sep s'
      else
        match split sep s' with
        | seg :: segs => String c seg :: segs
        | [] => [String c EmptyString]
        end
  | EmptyString => [EmptyString]
  end.

(** The text before and after the first [sep], if there is one. *)
Fixpoint splitFirst (sep : ascii) (s : string) : option (string * string) :=
  match s with
  | String c s' =>
      if Ascii.eqb c sep then Some (EmptyString, s')
      else
        match splitFirst sep s' with
        | Some (k, v) => Some (String c k, v)
        | None => None
        end
  | EmptyString => None
  end.

(** Modelled from the spec: [utils.parseHeaderParams] is not among the
    sources. Spec section 4.2: the header is split on [;], each segment is
    trimmed and split on its first [=] into key and value; a segment
    without [=] is dropped; a later occurrence of a key overwrites an
    earlier one. *)
Definition parseHeaderParams (header : string) : gmap string string :=
  foldl
    (fun (result : gmap string string) (paramString : string) =>
       match splitFirst "=" (trim paramString) with
       | Some (key, val) => <[ key := val ]> result
       | None => result
       end)
    ∅ (split ";" header).

(** Modelled from the spec: [utils.stringifyHeaderParams] is not among
    the sources. Spec section 4.2: the entries are joined as [key=value],
    separated by [; ], in their order. *)
Fixpoint stringifyHeaderParams (params : list (string * string)) : string :=
  match params with
  | [] => EmptyString
  | [(key, val)] => key +:+ "=" +:+ val
  | (key, val) :: rest => key +:+ "=" +:+ val +:+ "; " +:+ stringifyHeaderParams rest
  end.

End utils.

Module Scenario.

(** The text after the first [//] of a URI. *)
Fixpoint afterSlashes (s : string) : option string :=
  match s with
  | String "/" (String "/" r) => Some r
  | String _ r => afterSlashes r
  | EmptyString => None
  end.

(** The text up to the first [/], [?] or [#]. *)
Fixpoint authority (s : string) : string :=
  match s with
  | String c r =>
      if Ascii.eqb c "/" || Ascii.eqb c "?" || Ascii.eqb c "#" then EmptyString
      else String c (authority r)
  | EmptyString => EmptyString
  end.

(** The host of the URIs that the scenarios use, as [url.parse] reads it:
    what stands between [//] and the path; for a URI without [//] the host
    is [null]. It is never [undefined]. *)
Definition urlParse (u : string) : Url :=
  {| url_host :=
       Some match afterSlashes u with
            | Some r => HostName (authority r)
            | None => NullHost
            end |}.

(** The text of a hostname inside a template literal. *)
Definition hostText (hostname : Hostname) : string :=
  match hostname with
  | NullHost => "null"
  | HostName name => name
  end.

(** The transport of the scenarios: the world is the list of the responses
    still to come, and the clock stands still. Past the end of the script
    the server answers 503. *)
Definition World : Type := list Response.

Definition UNAVAILABLE : Response :=
  {| statusCode := 503; headers := ∅; body := EmptyString |}.

Definition io : HttpIo World :=
  {| post := fun _ (w : World) =>
               match w with
               | r :: w' => (r, w')
               | [] => (UNAVAILABLE, [])
               end |}.

#[export] Instance imports : Imports World :=
  {| SKYPEWEB_LOCKANDKEY_APPID := "app-id";
     SKYPEWEB_LOCKANDKEY_SECRET := "app-secret";
     SKYPEWEB_CLIENTINFO_NAME := "client-name";
     SKYPEWEB_CLIENTINFO_VERSION := "client-version";
     hmacSha256 := fun input appId secret => "hmac-sha256-hex";
     stringifyHeaderParams := utils.stringifyHeaderParams;
     parseHeaderParams := utils.parseHeaderParams;
     getCurrentTime := fun _ => 1510444800;
     endpoints := fun hostname =>
                    "https://" +:+ hostText hostname +:+ "/v1/users/ME/endpoints";
     parseUri := urlParse |}.

Definition jar : CookieStore := CookieJar 1.

Definition skypeToken : SkypeToken :=
  {| skypeToken_value := "skypetoken"; skypeToken_expirationDate := DateAt 0 |}.

Definition hostA : Hostname := HostName "a.example.com".
Definition hostB : Hostname := HostName "b.example.com".

Definition locationOf (hostname : Hostname) : string :=
  "https://" +:+ hostText hostname +:+ "/v1/users/ME/endpoints/%7Be1%7D".

Definition TOKEN_HEADER : string :=
  "registrationToken=abc; expires=1000; endpointId={e1}".

(** A response with the given status, [Location] and
    [Set-Registrationtoken] headers. *)
Definition response (status : Z) (location token : option string) : Response :=
  {| statusCode := status;
     headers :=
       match location, token with
       | Some l, Some t => {[ "location" := l; "set-registrationtoken" := t ]}
       | Some l, None => {[ "location" := l ]}
       | None, Some t => {[ "set-registrationtoken" := t ]}
       | None, None => ∅
       end;
     body := EmptyString |}.

(** [registerEndpoint] from [hostA] over a script of responses. *)
Definition run (retries : Z) (script : World) : Run World :=
  registerEndpoint io jar skypeToken hostA retries script.

(** The request that [run] sends to a hostname. *)
Definition request (hostname : Hostname) : PostOptions :=
  buildRequest jar skypeToken hostname [].

Definition redirectToB : Response :=
  response 301 (Some (locationOf hostB)) None.

Definition created (hostname : Hostname) (token : option string) : Response :=
  response 201 (Some (locationOf hostname)) token.

(** A 201 whose Location is a path, with no host. *)
Definition createdAtPath (token : option string) : Response :=
  response 201 (Some "/v1/users/ME/endpoints/%7Be1%7D") token.

Definition rateLimited : Response := response 429 None None.

Definition serverError : Response := response 500 None None.

(** A redirection to a path, with no host. *)
Definition redirectToPath : Response :=
  response 301 (Some "/v1/users/ME/endpoints") None.

(** The token header with its keys and nothing for two of them. *)
Definition EMPTY_TOKEN_HEADER : string :=
  "registrationToken=; expires=1000; endpointId=".

Definition tokenA : RegistrationToken :=
  {| value := "abc";
     expirationDate := DateAt 1000000;
     endpointId := "{e1}";
     raw := TOKEN_HEADER;
     host := hostA |}.

End Scenario.


(** ** Vocabulary of the statements *)

(** The string is made of decimal digits only. *)
Fixpoint allDigits (s : string) : bool :=
  match s with
  | String c s' => isDigit c && allDigits s'
  | EmptyString => true
  end.

(** [parseInt] finds a digit to start from: after the white space and the
    sign, the string goes on with a digit. *)
Definition hasNumericPrefix (s : string) : bool :=
  startsWithDigit (readSign (trimStart s)).2.

(** The statuses that the loop goes on with. *)
Definition expectedStatus (status : Z) : Prop := status = 201 \/ status = 301.

Section Passes.

Context {World : Type} {imports : Imports World}.
Variable io : HttpIo World.
Variable cookies_arg : CookieStore.
Variable skypeToken : SkypeToken.

(** The next [passes] passes of the loop all end by [continue]: none of
    them leaves the function. *)
Fixpoint passesContinue (passes : nat) (messagesHostname : Hostname)
  (tries : list Try) (w : World) : Prop :=
  match passes with
  | O => True
  | S passes' =>
      match iteration io cookies_arg skypeToken messagesHostname tries w with
      | (Continue messagesHostname', tries', w') =>
          passesContinue passes' messagesHostname' tries' w'
      | (Leave _, _, _) => False
      end
  end.

End Passes.

Section Traces.

Context {World : Type} {imports : Imports World}.

(** The tries are the log of exchanges with [io] that lead from the world
    [w] to the world [w_end]: each response is the answer of [io] to the
    request logged with it, in the world that the exchange before left. *)
Fixpoint replays (io : HttpIo World) (w : World) (tries : list Try) (w_end : World)
  : Prop :=
  match tries with
  | [] => w_end = w
  | try :: tries' =>
      res try = (post io (req try) w).1
      /\ replays io (post io (req try) w).2 tries' w_end
  end.

(** The tries follow the redirections from [hostname]: each request goes to
    the endpoints of the current hostname, and each response but the last
    has an expected status and a Location whose host, a string or [null]
    and another one than the current hostname, is the hostname of the next
    try. *)
Fixpoint redirectChain (hostname : Hostname) (tries : list Try) : Prop :=
  match tries with
  | [] => True
  | try :: tries' =>
      uri (req try) = endpoints hostname
      /\ match tries' with
         | [] => True
         | _ :: _ =>
             expectedStatus (statusCode (res try))
             /\ exists (locationHeader : string) (location_host : Hostname),
                 headers (res try) !! "location" = Some locationHeader
                 /\ url_host (parseUri locationHeader) = Some location_host
                 /\ location_host <> hostname
                 /\ redirectChain location_host tries'
         end
  end.

(** The request of the try is one of the loop: built for some hostname at
    some time. *)
Definition built (cookies_arg : CookieStore) (skypeToken : SkypeToken) (try : Try)
  : Prop :=
  exists (hostname : Hostname) (w : World),
    req try = buildRequest cookies_arg skypeToken hostname w.

End Traces.

(** ** Numbers and dates *)

Lemma DOUBLE_OVERFLOW_large : 2 ^ 53 < DOUBLE_OVERFLOW.
Proof. reflexivity. Qed.

(** An integer below 2^53 in magnitude is a double. *)
Lemma roundInt_exact (z : Z) : Z.abs z < 2 ^ 53 -> roundInt z = Finite z.
Proof.
  intros Hz. unfold roundInt.
  assert (Hlog : Z.log2 (Z.abs z) - 52 <= 0).
  { destruct (Z.eq_dec (Z.abs z) 0) as [E | E].
    - rewrite E. cbn. lia.
    - assert (Z.log2 (Z.abs z) < 53) by (apply Z.log2_lt_pow2; lia). lia. }
  apply Z.leb_le in Hlog. rewrite Hlog.
  pose proof DOUBLE_OVERFLOW_large as Hbig.
  destruct (Z.leb_spec DOUBLE_OVERFLOW (Z.abs z)) as [Hle | _]; [lia |].
  f_equal. destruct z; cbn; lia.
Qed.

(** [roundInt] rounds as IEEE 754 does: at integers that are doubles, at
    ties below and above an even and an odd mantissa, next to the largest
    double and at the first integer that overflows. *)
Example roundInt_is_IEEE :
  Forall (fun z => roundInt z = ofSpecFloat (doubleOfZ z))
    [0; 1; -1; 1000000; 8640000000000000; 2 ^ 53; 2 ^ 53 + 1; 2 ^ 53 + 2; 2 ^ 53 + 3;
     - (2 ^ 53 + 1); - (2 ^ 53 + 3); 10 ^ 23; 2 ^ 80 + 2 ^ 27; 2 ^ 80 + 2 ^ 27 + 1;
     2 ^ 80 + 3 * 2 ^ 27; 2 ^ 1024 - 2 ^ 970 - 1; 2 ^ 1024 - 2 ^ 970; 2 ^ 1024;
     - (2 ^ 1024)].
Proof. repeat constructor. Qed.

(** In the range of valid dates, [1000 * n] is exact. *)
Lemma mul_1000_exact (n : Z) :
  Z.abs n <= 8640000000000 -> mul (Finite 1000) (Finite n) = Finite (1000 * n).
Proof.
  intros Hn. unfold mul, isNegative.
  destruct (Z.eqb_spec (1000 * n) 0) as [E | E].
  - assert (n = 0) as -> by lia. reflexivity.
  - apply roundInt_exact. change (2 ^ 53) with 9007199254740992. lia.
Qed.

Lemma newDate_seconds (n : Z) :
  Z.abs n <= 8640000000000 ->
  newDate (mul (Finite 1000) (Finite n)) = DateAt (1000 * n).
Proof.
  intros Hn. rewrite mul_1000_exact by exact Hn. unfold newDate, MAX_TIME.
  destruct (Z.leb_spec (Z.abs (1000 * n)) 8640000000000000); [reflexivity | lia].
Qed.

Lemma newDate_NaN : newDate (mul (Finite 1000) NaN) = InvalidDate.
Proof. reflexivity. Qed.

(** ** [parseInt] *)

(** A string that starts with a digit has no white space to skip and no
    sign. *)
Lemma startsWithDigit_plain (s : string) :
  startsWithDigit s = true -> trimStart s = s /\ readSign s = (1, s).
Proof.
  destruct s as [| c s]; [discriminate |].
  destruct c as [[] [] [] [] [] [] [] []]; cbn; intros H;
    try discriminate H; split; reflexivity.
Qed.

Lemma append_nil_l (s : string) : EmptyString +:+ s = s.
Proof. reflexivity. Qed.

Lemma append_cons (c : ascii) (s t : string) : String c s +:+ t = String c (s +:+ t).
Proof. reflexivity. Qed.

Lemma readDigits_app (d rest : string) (acc : Z) :
  allDigits d = true -> startsWithDigit rest = false ->
  readDigits (d +:+ rest) acc = readDigits d acc.
Proof.
  revert acc. induction d as [| c d IH]; intros acc Hd Hrest.
  - rewrite append_nil_l. destruct rest as [| c rest]; [reflexivity |].
    cbn in *. unfold isDigit in Hrest. destruct (digitOf c); [discriminate | reflexivity].
  - cbn in Hd. apply andb_prop in Hd as [Hc Hd].
    rewrite append_cons. cbn. unfold isDigit in Hc. destruct (digitOf c); [| discriminate].
    apply IH; assumption.
Qed.

(** What follows the digits is ignored. *)
Lemma parseInt10_prefix (d rest : string) :
  allDigits d = true -> d <> EmptyString -> startsWithDigit rest = false ->
  parseInt10 (d +:+ rest) = parseInt10 d.
Proof.
  intros Hd Hne Hrest.
  assert (Hstart : startsWithDigit d = true).
  { destruct d as [| c d]; [congruence |]. cbn in *. apply andb_prop in Hd. tauto. }
  assert (Hstart' : startsWithDigit (d +:+ rest) = true).
  { destruct d as [| c d]; [congruence | rewrite append_cons; exact Hstart]. }
  unfold parseInt10.
  destruct (startsWithDigit_plain _ Hstart) as [-> ->].
  destruct (startsWithDigit_plain _ Hstart') as [-> ->].
  rewrite Hstart, Hstart', readDigits_app by assumption. reflexivity.
Qed.

(** Without a digit to start from, the result is [NaN]. *)
Lemma parseInt10_no_prefix (s : string) :
  hasNumericPrefix s = false -> parseInt10 s = NaN.
Proof.
  unfold hasNumericPrefix, parseInt10.
  destruct (readSign (trimStart s)) as [sign rest]; cbn. intros ->. reflexivity.
Qed.

Example parseInt10_1000x : parseInt10 "1000x" = Finite 1000.
Proof. reflexivity. Qed.

Example parseInt10_signed : parseInt10 "  -42px" = Finite (-42).
Proof. reflexivity. Qed.

Example parseInt10_minus_zero : parseInt10 "-0" = NegZero.
Proof. reflexivity. Qed.

Example parseInt10_rounds : parseInt10 "9007199254740993" = Finite 9007199254740992.
Proof. vm_compute. reflexivity. Qed.

Example parseInt10_letters : parseInt10 "soon" = NaN.
Proof. reflexivity. Qed.

(** ** The token header *)

Section TokenHeader.

Context {World : Type} {imports : Imports World}.

(** With its three keys the header yields the token of lines 156 to 162. *)
Lemma readSetRegistrationTokenHeader_present (hostname : Hostname) (header v x i : string) :
  parseHeaderParams header !! "registrationToken" = Some v ->
  parseHeaderParams header !! "expires" = Some x ->
  parseHeaderParams header !! "endpointId" = Some i ->
  readSetRegistrationTokenHeader hostname header =
    Return {| value := v;
              expirationDate := newDate (mul (Finite 1000) (parseInt10 x));
              endpointId := i;
              raw := header;
              host := hostname |}.
Proof.
  intros Hv Hx Hi. unfold readSetRegistrationTokenHeader.
  rewrite Hv, Hx, Hi. reflexivity.
Qed.

(** Without one of them it throws, and what it throws holds the header
    and what was parsed of it. *)
Lemma readSetRegistrationTokenHeader_absent (hostname : Hostname) (header : string) :
  parseHeaderParams header !! "registrationToken" = None \/
  parseHeaderParams header !! "expires" = None \/
  parseHeaderParams header !! "endpointId" = None ->
  readSetRegistrationTokenHeader hostname header =
    Throw (InvalidSetRegistrationTokenHeader header (parseHeaderParams header)).
Proof.
  unfold readSetRegistrationTokenHeader.
  intros [H | [H | H]]; rewrite H;
    repeat match goal with
           | |- context [match ?o with Some _ => _ | None => _ end] => destruct o
           end; reflexivity.
Qed.

(** The two cases are all there is. *)
Lemma readSetRegistrationTokenHeader_cases (hostname : Hostname) (header : string) :
  (exists v x i,
      parseHeaderParams header !! "registrationToken" = Some v /\
      parseHeaderParams header !! "expires" = Some x /\
      parseHeaderParams header !! "endpointId" = Some i) \/
  (parseHeaderParams header !! "registrationToken" = None \/
   parseHeaderParams header !! "expires" = None \/
   parseHeaderParams header !! "endpointId" = None).
Proof.
  destruct (parseHeaderParams header !! "registrationToken") as [v |]; [| tauto].
  destruct (parseHeaderParams header !! "expires") as [x |]; [| tauto].
  destruct (parseHeaderParams header !! "endpointId") as [i |]; [| tauto].
  left. eauto 7.
Qed.

(** A returned token is read off the parsed header. *)
Lemma readSetRegistrationTokenHeader_return (hostname : Hostname) (header : string)
  (tok : RegistrationToken) :
  readSetRegistrationTokenHeader hostname header = Return tok ->
  parseHeaderParams header !! "registrationToken" = Some (value tok) /\
  parseHeaderParams header !! "endpointId" = Some (endpointId tok) /\
  (exists x, parseHeaderParams header !! "expires" = Some x /\
             expirationDate tok = newDate (mul (Finite 1000) (parseInt10 x))) /\
  raw tok = header /\
  host tok = hostname.
Proof.
  intros Hret.
  destruct (readSetRegistrationTokenHeader_cases hostname header)
    as [(v & x & i & Hv & Hx & Hi) | Habs].
  - rewrite (readSetRegistrationTokenHeader_present _ _ _ _ _ Hv Hx Hi) in Hret.
    injection Hret as <-. cbn. eauto 7.
  - rewrite (readSetRegistrationTokenHeader_absent _ _ Habs) in Hret. discriminate.
Qed.

End TokenHeader.

Lemma TOKEN_HEADER_parsed :
  utils.parseHeaderParams Scenario.TOKEN_HEADER !! "registrationToken" = Some "abc" /\
  utils.parseHeaderParams Scenario.TOKEN_HEADER !! "expires" = Some "1000" /\
  utils.parseHeaderParams Scenario.TOKEN_HEADER !! "endpointId" = Some "{e1}".
Proof. vm_compute. auto. Qed.

(** C1. [readSetRegistrationTokenHeader] throws, and then the incident
    InvalidSetRegistrationTokenHeader, exactly when one of the keys
    registrationToken, expires, endpointId is absent from the parsed header;
    otherwise it returns the token whose value and endpointId are those of
    the header, whose expiration is the date of 1000 times the parsed
    expires (that many milliseconds after the epoch, in the range of dates),
    whose raw field is the header and whose host is the hostname. The header
    [registrationToken=abc; expires=1000; endpointId={e1}], parsed as the
    spec describes, gives the token of the spec's scenario A. *)
Theorem readSetRegistrationTokenHeader_correct :
  forall (World : Type) (imports : Imports World) (hostname : Hostname) (header : string),
    let parsed := parseHeaderParams header in
    let outcome := readSetRegistrationTokenHeader hostname header in
    ((exists e, outcome = Throw e) <->
       (parsed !! "registrationToken" = None \/
        parsed !! "expires" = None \/
        parsed !! "endpointId" = None))
    /\ (forall e, outcome = Throw e ->
                  e = InvalidSetRegistrationTokenHeader header parsed)
    /\ (forall v x i,
           parsed !! "registrationToken" = Some v ->
           parsed !! "expires" = Some x ->
           parsed !! "endpointId" = Some i ->
           outcome = Return {| value := v;
                               expirationDate := newDate (mul (Finite 1000) (parseInt10 x));
                               endpointId := i;
                               raw := header;
                               host := hostname |}
           /\ (forall n, parseInt10 x = Finite n -> Z.abs n <= 8640000000000 ->
                         newDate (mul (Finite 1000) (parseInt10 x)) = DateAt (1000 * n)))
    /\ (parseHeaderParams = utils.parseHeaderParams ->
        readSetRegistrationTokenHeader hostname Scenario.TOKEN_HEADER =
          Return {| value := "abc";
                    expirationDate := DateAt 1000000;
                    endpointId := "{e1}";
                    raw := Scenario.TOKEN_HEADER;
                    host := hostname |}).
Proof.
  intros World imports hostname header parsed outcome. subst parsed outcome.
  repeat split.
  - intros [e He].
    destruct (readSetRegistrationTokenHeader_cases hostname header)
      as [(v & x & i & Hv & Hx & Hi) | Habs]; [| exact Habs].
    rewrite (readSetRegistrationTokenHeader_present _ _ _ _ _ Hv Hx Hi) in He.
    discriminate.
  - intros Habs. eexists. apply readSetRegistrationTokenHeader_absent, Habs.
  - intros e He.
    destruct (readSetRegistrationTokenHeader_cases hostname header)
      as [(v & x & i & Hv & Hx & Hi) | Habs].
    + rewrite (readSetRegistrationTokenHeader_present _ _ _ _ _ Hv Hx Hi) in He.
      discriminate.
    + rewrite (readSetRegistrationTokenHeader_absent _ _ Habs) in He. congruence.
  - apply readSetRegistrationTokenHeader_present; assumption.
  - intros n -> Hn. apply newDate_seconds, Hn.
  - intros Hparse.
    destruct TOKEN_HEADER_parsed as (Hv & Hx & Hi). rewrite <- Hparse in Hv, Hx, Hi.
    rewrite (readSetRegistrationTokenHeader_present _ _ _ _ _ Hv Hx Hi).
    reflexivity.
Qed.

(** C10. With the three keys in the parsed header,
    [readSetRegistrationTokenHeader] returns a token whatever the text of
    expires: the expiration is the date of 1000 times [parseInt] of it, which
    reads the digits the text starts with and ignores what follows (1000x
    counts as 1000), and which is the invalid date when the text has no
    digit to start from. *)
Theorem readSetRegistrationTokenHeader_lenient_expires :
  forall (World : Type) (imports : Imports World) (hostname : Hostname) (header v x i : string),
    parseHeaderParams header !! "registrationToken" = Some v ->
    parseHeaderParams header !! "expires" = Some x ->
    parseHeaderParams header !! "endpointId" = Some i ->
    exists tok,
      readSetRegistrationTokenHeader hostname header = Return tok
      /\ expirationDate tok = newDate (mul (Finite 1000) (parseInt10 x))
      /\ (forall d rest,
             x = d +:+ rest -> allDigits d = true -> d <> EmptyString ->
             startsWithDigit rest = false ->
             expirationDate tok = newDate (mul (Finite 1000) (parseInt10 d)))
      /\ (x = "1000x" -> expirationDate tok = DateAt 1000000)
      /\ (hasNumericPrefix x = false -> expirationDate tok = InvalidDate).
Proof.
  intros World imports hostname header v x i Hv Hx Hi.
  eexists. split; [apply readSetRegistrationTokenHeader_present; eassumption |].
  cbn. repeat split.
  - intros d rest -> Hd Hne Hrest. rewrite parseInt10_prefix by assumption. reflexivity.
  - intros ->. reflexivity.
  - intros Hno. rewrite parseInt10_no_prefix by assumption. reflexivity.
Qed.

(** The header of scenario A with [1000x] for expires. *)
Lemma readSetRegistrationTokenHeader_lenient_expires_witness :
  exists tok,
    readSetRegistrationTokenHeader (imports := Scenario.imports) Scenario.hostA
      "registrationToken=abc; expires=1000x; endpointId={e1}" = Return tok
    /\ expirationDate tok = DateAt 1000000.
Proof.
  destruct (readSetRegistrationTokenHeader_lenient_expires
              Scenario.World Scenario.imports Scenario.hostA
              "registrationToken=abc; expires=1000x; endpointId={e1}"
              "abc" "1000x" "{e1}")
    as (tok & Hret & _ & _ & H1000 & _).
  - vm_compute. reflexivity.
  - vm_compute. reflexivity.
  - vm_compute. reflexivity.
  - exists tok. split; [exact Hret | apply H1000; reflexivity].
Defined.

(** ** The loop of [registerEndpoint] *)

Lemma strictEquals_spec (a b : Hostname) : reflect (a = b) (strictEquals a b).
Proof.
  destruct a as [| x], b as [| y]; cbn; try (constructor; congruence).
  destruct (String.eqb_spec x y); constructor; congruence.
Qed.

Lemma strictEquals_eq (a b : Hostname) : strictEquals a b = true <-> a = b.
Proof. destruct (strictEquals_spec a b); split; congruence. Qed.

Lemma strictEquals_neq (a b : Hostname) : strictEquals a b = false <-> a <> b.
Proof. destruct (strictEquals_spec a b); split; congruence. Qed.

Lemma strictEquals_refl (a : Hostname) : strictEquals a a = true.
Proof. apply strictEquals_eq. reflexivity. Qed.

Lemma expectedStatusCode_has (status : Z) :
  bool_decide (status ∈ ({[ 201; 301 ]} : gset Z)) = true <-> expectedStatus status.
Proof.
  unfold expectedStatus. rewrite bool_decide_eq_true. set_solver.
Qed.

Lemma expectedStatus_not_429 (status : Z) : expectedStatus status -> (status =? 429) = false.
Proof. intros [-> | ->]; reflexivity. Qed.

Section Classify.

Context {World : Type} {imports : Imports World}.
Variables (messagesHostname : Hostname) (tries : list Try).
Variables (req : PostOptions) (res : Response).

Lemma classify_rate_limited :
  statusCode res = 429 ->
  classify messagesHostname tries req res =
    registrationError (LoginRateLimitExceeded tries).
Proof. intros H. unfold classify. rewrite H. reflexivity. Qed.

Lemma classify_unexpected :
  statusCode res <> 429 -> ~ expectedStatus (statusCode res) ->
  classify messagesHostname tries req res =
    registrationError (UnexpectedHttpStatus res {[ 201; 301 ]} req).
Proof.
  intros H429 Hexp. unfold classify.
  apply Z.eqb_neq in H429. rewrite H429.
  destruct (bool_decide (statusCode res ∈ ({[ 201; 301 ]} : gset Z))) eqn:E;
    [| reflexivity].
  apply expectedStatusCode_has in E. contradiction.
Qed.

(** With an expected status, what is left of the body is the reading of
    the two headers. *)
Lemma classify_expected :
  expectedStatus (statusCode res) ->
  classify messagesHostname tries req res =
    match headers res !! "location" with
    | None => registrationError (MissingHeader res "Location" req)
    | Some locationHeader =>
        match url_host (parseUri locationHeader) with
        | None => Leave (Throw (ParseError "Expected location to define host"))
        | Some location_host =>
            if negb (strictEquals location_host messagesHostname) then
              Continue location_host
            else
              match headers res !! "set-registrationtoken" with
              | None =>
                  registrationError (MissingHeader res "Set-Registrationtoken" req)
              | Some registrationTokenHeader =>
                  Leave (readSetRegistrationTokenHeader
                           messagesHostname registrationTokenHeader)
              end
        end
    end.
Proof.
  intros Hexp. unfold classify.
  rewrite (expectedStatus_not_429 _ Hexp).
  apply expectedStatusCode_has in Hexp. rewrite Hexp. reflexivity.
Qed.

Lemma classify_no_location :
  expectedStatus (statusCode res) -> headers res !! "location" = None ->
  classify messagesHostname tries req res =
    registrationError (MissingHeader res "Location" req).
Proof. intros Hexp Hloc. rewrite classify_expected, Hloc by assumption. reflexivity. Qed.

Lemma classify_no_host (locationHeader : string) :
  expectedStatus (statusCode res) ->
  headers res !! "location" = Some locationHeader ->
  url_host (parseUri locationHeader) = None ->
  classify messagesHostname tries req res =
    Leave (Throw (ParseError "Expected location to define host")).
Proof.
  intros Hexp Hloc Hhost. rewrite classify_expected, Hloc, Hhost by assumption.
  reflexivity.
Qed.

Lemma classify_redirect (locationHeader : string) (location_host : Hostname) :
  expectedStatus (statusCode res) ->
  headers res !! "location" = Some locationHeader ->
  url_host (parseUri locationHeader) = Some location_host ->
  location_host <> messagesHostname ->
  classify messagesHostname tries req res = Continue location_host.
Proof.
  intros Hexp Hloc Hhost Hne. rewrite classify_expected, Hloc, Hhost by assumption.
  apply strictEquals_neq in Hne. rewrite Hne. reflexivity.
Qed.

Lemma classify_no_token (locationHeader : string) :
  expectedStatus (statusCode res) ->
  headers res !! "location" = Some locationHeader ->
  url_host (parseUri locationHeader) = Some messagesHostname ->
  headers res !! "set-registrationtoken" = None ->
  classify messagesHostname tries req res =
    registrationError (MissingHeader res "Set-Registrationtoken" req).
Proof.
  intros Hexp Hloc Hhost Htok.
  rewrite classify_expected, Hloc, Hhost, strictEquals_refl, Htok by assumption.
  reflexivity.
Qed.

Lemma classify_token (locationHeader registrationTokenHeader : string) :
  expectedStatus (statusCode res) ->
  headers res !! "location" = Some locationHeader ->
  url_host (parseUri locationHeader) = Some messagesHostname ->
  headers res !! "set-registrationtoken" = Some registrationTokenHeader ->
  classify messagesHostname tries req res =
    Leave (readSetRegistrationTokenHeader messagesHostname registrationTokenHeader).
Proof.
  intros Hexp Hloc Hhost Htok.
  rewrite classify_expected, Hloc, Hhost, strictEquals_refl, Htok by assumption.
  reflexivity.
Qed.

(** The body never throws the incident of the exhausted loop. *)
Lemma classify_not_limit (t : list Try) (message : string) :
  classify messagesHostname tries req res <>
    Leave (Throw (EndpointRegistrationError (EndpointRedirectionsLimit t) message)).
Proof.
  unfold classify, registrationError.
  repeat match goal with
         | |- context [if ?b then _ else _] => destruct b
         | |- context [match ?o with Some _ => _ | None => _ end] => destruct o
         end; try discriminate.
  match goal with
  | |- context [readSetRegistrationTokenHeader ?h ?s] =>
      destruct (readSetRegistrationTokenHeader_cases h s)
        as [(v & x & i & Hv & Hx & Hi) | Habs];
      [ rewrite (readSetRegistrationTokenHeader_present _ _ _ _ _ Hv Hx Hi)
      | rewrite (readSetRegistrationTokenHeader_absent _ _ Habs) ]
  end; discriminate.
Qed.

(** A token comes out of the body only by the last line of it. *)
Lemma classify_return (tok : RegistrationToken) :
  classify messagesHostname tries req res = Leave (Return tok) ->
  expectedStatus (statusCode res) /\
  exists locationHeader registrationTokenHeader,
    headers res !! "location" = Some locationHeader /\
    url_host (parseUri locationHeader) = Some messagesHostname /\
    headers res !! "set-registrationtoken" = Some registrationTokenHeader /\
    readSetRegistrationTokenHeader messagesHostname registrationTokenHeader = Return tok.
Proof.
  unfold classify, registrationError.
  destruct (statusCode res =? 429); [discriminate |].
  destruct (bool_decide (statusCode res ∈ ({[ 201; 301 ]} : gset Z))) eqn:Hexp;
    [| discriminate].
  apply expectedStatusCode_has in Hexp. cbn.
  destruct (headers res !! "location") as [l |]; [| discriminate].
  destruct (url_host (parseUri l)) as [h |] eqn:Hh; [| discriminate].
  destruct (strictEquals h messagesHostname) eqn:Heq; [| discriminate]. cbn.
  apply strictEquals_eq in Heq. subst h.
  destruct (headers res !! "set-registrationtoken") as [t |]; [| discriminate].
  intros [= Hret]. split; [exact Hexp |]. eauto 7.
Qed.

End Classify.

Section Loop.

Context {World : Type} {imports : Imports World}.
Variable io : HttpIo World.
Variable cookies_arg : CookieStore.
Variable skypeToken : SkypeToken.


(** One pass sends one request and records the exchange. *)
Lemma iteration_exchange (messagesHostname : Hostname) (tries : list Try)
  (w w' : World) (res : Response) :
  post io (buildRequest cookies_arg skypeToken messagesHostname w) w = (res, w') ->
  let try := {| req := buildRequest cookies_arg skypeToken messagesHostname w; res := res |} in
  iteration io cookies_arg skypeToken messagesHostname tries w =
    (classify messagesHostname (tries ++ [try]) (buildRequest cookies_arg skypeToken messagesHostname w) res,
     tries ++ [try], w').
Proof. intros Hpost. unfold iteration. rewrite Hpost. reflexivity. Qed.

Lemma iteration_attempts (messagesHostname : Hostname) (tries : list Try) (w : World) :
  exists try, (iteration io cookies_arg skypeToken messagesHostname tries w).1.2 = tries ++ [try].
Proof.
  unfold iteration. destruct (post io _ w) as [res w']. cbn. eauto.
Qed.

Lemma loop_leave (passes : nat) (messagesHostname : Hostname) (tries tries' : list Try)
  (w w' : World) (r : Result RegistrationToken) :
  iteration io cookies_arg skypeToken messagesHostname tries w = (Leave r, tries', w') ->
  loop io cookies_arg skypeToken (S passes) messagesHostname tries w =
    {| result := r; attempts := tries'; world := w' |}.
Proof. intros H. cbn. rewrite H. reflexivity. Qed.

Lemma loop_continue (passes : nat) (messagesHostname h : Hostname)
  (tries tries' : list Try) (w w' : World) :
  iteration io cookies_arg skypeToken messagesHostname tries w = (Continue h, tries', w') ->
  loop io cookies_arg skypeToken (S passes) messagesHostname tries w = loop io cookies_arg skypeToken passes h tries' w'.
Proof. intros H. cbn. rewrite H. reflexivity. Qed.

(** Each pass makes one attempt, and there are no more attempts than
    passes. *)
Lemma loop_attempts_bounds (passes : nat) :
  forall (messagesHostname : Hostname) (tries : list Try) (w : World),
    (length tries + Nat.min 1 passes <= length (attempts (loop io cookies_arg skypeToken passes messagesHostname tries w))
     /\ length (attempts (loop io cookies_arg skypeToken passes messagesHostname tries w)) <= length tries + passes)%nat.
Proof.
  induction passes as [| passes IH]; intros messagesHostname tries w.
  - cbn. lia.
  - destruct (iteration_attempts messagesHostname tries w) as [try Htry].
    destruct (iteration io cookies_arg skypeToken messagesHostname tries w) as [[[h | r] tries'] w'] eqn:Hit;
      cbn in Htry; subst tries'.
    + rewrite (loop_continue _ _ _ _ _ _ _ Hit).
      specialize (IH h (tries ++ [try]) w'). rewrite length_app in IH. cbn in *. lia.
    + rewrite (loop_leave _ _ _ _ _ _ _ Hit). cbn. rewrite length_app. cbn. lia.
Qed.

(** The loop throws EndpointRedirectionsLimit exactly when all its passes
    end by [continue]; the incident then holds the whole [tries] array,
    one try for each pass. *)
Lemma loop_limit (passes : nat) :
  forall (messagesHostname : Hostname) (tries : list Try) (w : World),
    let run := loop io cookies_arg skypeToken passes messagesHostname tries w in
    (passesContinue io cookies_arg skypeToken passes messagesHostname tries w ->
     result run = Throw (EndpointRegistrationError
                           (EndpointRedirectionsLimit (attempts run)) ERROR_MESSAGE)
     /\ length (attempts run) = (length tries + passes)%nat)
    /\ (forall t message,
           result run = Throw (EndpointRegistrationError
                                 (EndpointRedirectionsLimit t) message) ->
           passesContinue io cookies_arg skypeToken passes messagesHostname tries w).
Proof.
  induction passes as [| passes IH]; intros messagesHostname tries w run; subst run.
  - cbn. split; [intros _; split; [reflexivity | lia] | trivial].
  - destruct (iteration_attempts messagesHostname tries w) as [try Htry].
    cbn [passesContinue].
    destruct (iteration io cookies_arg skypeToken messagesHostname tries w) as [[[h | r] tries'] w'] eqn:Hit;
      cbn in Htry; subst tries'.
    + rewrite (loop_continue _ _ _ _ _ _ _ Hit).
      destruct (IH h (tries ++ [try]) w') as [IH1 IH2]. split.
      * intros Hc. destruct (IH1 Hc) as [Hr Hl]. split; [exact Hr |].
        rewrite Hl, length_app. cbn. lia.
      * exact IH2.
    + rewrite (loop_leave _ _ _ _ _ _ _ Hit). cbn. split; [contradiction |].
      intros t message ->.
      unfold iteration in Hit. destruct (post io _ w) as [res0 w0].
      injection Hit as Hcl _ _. exact (classify_not_limit _ _ _ _ _ _ Hcl).
Qed.

(** A token is returned by the pass that made the last attempt: a request
    to the hostname of the token, answered with the header that the token
    is read from. *)
Lemma loop_return (passes : nat) :
  forall (messagesHostname : Hostname) (tries : list Try) (w : World)
         (tok : RegistrationToken),
    result (loop io cookies_arg skypeToken passes messagesHostname tries w) = Return tok ->
    exists (before : list Try) (request : PostOptions) (response : Response)
           (locationHeader registrationTokenHeader : string),
      attempts (loop io cookies_arg skypeToken passes messagesHostname tries w) =
        before ++ [{| req := request; res := response |}]
      /\ uri request = endpoints (host tok)
      /\ expectedStatus (statusCode response)
      /\ headers response !! "location" = Some locationHeader
      /\ url_host (parseUri locationHeader) = Some (host tok)
      /\ headers response !! "set-registrationtoken" = Some registrationTokenHeader
      /\ readSetRegistrationTokenHeader (host tok) registrationTokenHeader = Return tok.
Proof.
  induction passes as [| passes IH]; intros messagesHostname tries w tok.
  - cbn. discriminate.
  - destruct (iteration io cookies_arg skypeToken messagesHostname tries w) as [[[h | r] tries'] w'] eqn:Hit.
    + rewrite (loop_continue _ _ _ _ _ _ _ Hit). apply IH.
    + rewrite (loop_leave _ _ _ _ _ _ _ Hit). cbn. intros ->.
      unfold iteration in Hit. destruct (post io _ w) as [res0 w0].
      injection Hit as Hcl <- _.
      apply classify_return in Hcl as (Hexp & l & t & Hl & Hh & Ht & Hret).
      pose proof (readSetRegistrationTokenHeader_return _ _ _ Hret)
        as (_ & _ & _ & _ & Hhost).
      rewrite Hhost. exists tries. eexists _, _, l, t. repeat split; eauto.
Qed.

End Loop.

(** ** The protocol *)

Section Properties.

Context {World : Type} {imports : Imports World}.
Variable io : HttpIo World.
Variable cookies_arg : CookieStore.
Variable skypeToken : SkypeToken.


Lemma registerEndpoint_passes (messagesHostname : Hostname) (retries : Z) (w : World) :
  0 <= retries ->
  registerEndpoint io cookies_arg skypeToken messagesHostname retries w =
    loop io cookies_arg skypeToken (S (Z.to_nat retries)) messagesHostname [] w.
Proof.
  intros Hr. unfold registerEndpoint.
  replace (retries + 1) with (Z.succ retries) by lia.
  rewrite Z2Nat.inj_succ by exact Hr. reflexivity.
Qed.

(** X2. A negative [retries] leaves no pass to the loop: nothing is sent,
    and the call throws EndpointRegistrationError with the cause
    EndpointRedirectionsLimit and an empty [tries] array. *)
Lemma registerEndpoint_negative_retries (messagesHostname : Hostname) (retries : Z)
  (w : World) :
  retries < 0 ->
  registerEndpoint io cookies_arg skypeToken messagesHostname retries w =
    {| result := Throw (EndpointRegistrationError
                          (EndpointRedirectionsLimit []) ERROR_MESSAGE);
       attempts := [];
       world := w |}.
Proof.
  intros Hr. unfold registerEndpoint.
  replace (Z.to_nat (retries + 1)) with 0%nat by lia. reflexivity.
Qed.

(** C2. When the first response has status 429, [registerEndpoint], with
    any retry budget, throws EndpointRegistrationError with the cause
    LoginRateLimitExceeded after one attempt: the cause holds the whole
    [tries] array, which is that one exchange, and the world is left as
    the first exchange left it, so nothing more was sent. At any pass a
    response with status 429 is classified so, and never as an unexpected
    status. *)
Theorem registerEndpoint_rate_limited
  (messagesHostname : Hostname) (retries : Z) (w w' : World) (res : Response) :
  0 <= retries ->
  post io (buildRequest cookies_arg skypeToken messagesHostname w) w = (res, w') ->
  statusCode res = 429 ->
  let try := {| req := buildRequest cookies_arg skypeToken messagesHostname w; res := res |} in
  registerEndpoint io cookies_arg skypeToken messagesHostname retries w =
    {| result := Throw (EndpointRegistrationError
                          (LoginRateLimitExceeded [try]) ERROR_MESSAGE);
       attempts := [try];
       world := w' |}
  /\ length (attempts (registerEndpoint io cookies_arg skypeToken messagesHostname retries w)) = 1%nat
  /\ (forall (hostname : Hostname) (tries : list Try) (req : PostOptions),
         classify hostname tries req res =
           registrationError (LoginRateLimitExceeded tries)
         /\ forall expected,
             classify hostname tries req res <>
               registrationError (UnexpectedHttpStatus res expected req)).
Proof.
  intros Hr Hpost H429 try.
  assert (Hrun : registerEndpoint io cookies_arg skypeToken messagesHostname retries w =
                   {| result := Throw (EndpointRegistrationError
                                         (LoginRateLimitExceeded [try]) ERROR_MESSAGE);
                      attempts := [try];
                      world := w' |}).
  { rewrite registerEndpoint_passes by exact Hr.
    apply loop_leave. rewrite (iteration_exchange _ _ _ _ _ _ _ _ Hpost).
    rewrite classify_rate_limited by exact H429. reflexivity. }
  split; [exact Hrun |]. split; [rewrite Hrun; reflexivity |].
  intros hostname tries req.
  rewrite classify_rate_limited by exact H429.
  split; [reflexivity | discriminate].
Qed.

(** C3. With a retry budget [retries >= 0], [registerEndpoint] makes at
    least one and at most [retries + 1] attempts, exactly one when
    [retries] is 0. It throws EndpointRegistrationError with the cause
    EndpointRedirectionsLimit exactly when all [retries + 1] passes of the
    loop end by [continue]; the cause then holds the whole [tries] array,
    of [retries + 1] tries. With [retries = 0] and a first response of
    status 301 whose Location has another host, it throws so after one
    attempt. *)
Theorem registerEndpoint_retries_exhausted
  (messagesHostname : Hostname) (retries : Z) (w : World) :
  0 <= retries ->
  let run := registerEndpoint io cookies_arg skypeToken messagesHostname retries w in
  (1 <= Z.of_nat (length (attempts run)) <= retries + 1)
  /\ (retries = 0 -> length (attempts run) = 1%nat)
  /\ (passesContinue io cookies_arg skypeToken (Z.to_nat (retries + 1)) messagesHostname [] w <->
      exists t, result run =
                  Throw (EndpointRegistrationError
                           (EndpointRedirectionsLimit t) ERROR_MESSAGE))
  /\ (forall t message,
         result run = Throw (EndpointRegistrationError
                               (EndpointRedirectionsLimit t) message) ->
         t = attempts run /\ Z.of_nat (length t) = retries + 1)
  /\ (retries = 0 ->
      forall (res : Response) (w' : World) (locationHeader : string) (location_host : Hostname),
        post io (buildRequest cookies_arg skypeToken messagesHostname w) w = (res, w') ->
        statusCode res = 301 ->
        headers res !! "location" = Some locationHeader ->
        url_host (parseUri locationHeader) = Some location_host ->
        location_host <> messagesHostname ->
        let try := {| req := buildRequest cookies_arg skypeToken messagesHostname w; res := res |} in
        run = {| result := Throw (EndpointRegistrationError
                                    (EndpointRedirectionsLimit [try]) ERROR_MESSAGE);
                 attempts := [try];
                 world := w' |}).
Proof.
  intros Hr run. subst run. unfold registerEndpoint.
  set (passes := Z.to_nat (retries + 1)).
  assert (Hpasses : Z.of_nat passes = retries + 1) by (subst passes; lia).
  pose proof (loop_attempts_bounds io cookies_arg skypeToken passes messagesHostname [] w)
    as [Hlo Hhi].
  pose proof (loop_limit io cookies_arg skypeToken passes messagesHostname [] w)
    as [Hlim1 Hlim2].
  cbn [length] in *.
  assert (Hmin : Nat.min 1 passes = 1%nat) by lia.
  split; [lia |].
  split; [intros ->; lia |].
  split; [split |].
  - intros Hc. destruct (Hlim1 Hc) as [Hres _]. eauto.
  - intros [t Ht]. exact (Hlim2 _ _ Ht).
  - split.
    + intros t message Ht.
      destruct (Hlim1 (Hlim2 _ _ Ht)) as [Hres Hlen].
      rewrite Hres in Ht. injection Ht as <- _. split; [reflexivity | lia].
    + intros -> res w' l h Hpost H301 Hloc Hhost Hne. subst passes.
      change (Z.to_nat (0 + 1)) with 1%nat. cbn [loop].
      rewrite (iteration_exchange _ _ _ _ _ _ _ _ Hpost).
      rewrite (classify_redirect _ _ _ _ l h) by (unfold expectedStatus; auto).
      reflexivity.
Qed.

(** C4. A response with status 201 or 301 whose Location has a host other
    than the current hostname makes the pass end by [continue]: the loop
    goes on from the new hostname with one pass less, whatever the pass
    was spent on before. With [retries = 2], a 301 to another host
    followed by a 201 from that host with its token header returns the
    token of that host after two attempts. *)
Theorem registerEndpoint_redirect
  (passes : nat) (messagesHostname : Hostname) (tries : list Try) (w w' : World)
  (res : Response) (locationHeader : string) (location_host : Hostname) :
  post io (buildRequest cookies_arg skypeToken messagesHostname w) w = (res, w') ->
  expectedStatus (statusCode res) ->
  headers res !! "location" = Some locationHeader ->
  url_host (parseUri locationHeader) = Some location_host ->
  location_host <> messagesHostname ->
  let try := {| req := buildRequest cookies_arg skypeToken messagesHostname w; res := res |} in
  iteration io cookies_arg skypeToken messagesHostname tries w = (Continue location_host, tries ++ [try], w')
  /\ loop io cookies_arg skypeToken (S passes) messagesHostname tries w =
       loop io cookies_arg skypeToken passes location_host (tries ++ [try]) w'
  /\ (forall (res2 : Response) (w2 : World) (locationHeader2 header v x i : string),
         statusCode res = 301 ->
         post io (buildRequest cookies_arg skypeToken location_host w') w' = (res2, w2) ->
         statusCode res2 = 201 ->
         headers res2 !! "location" = Some locationHeader2 ->
         url_host (parseUri locationHeader2) = Some location_host ->
         headers res2 !! "set-registrationtoken" = Some header ->
         parseHeaderParams header !! "registrationToken" = Some v ->
         parseHeaderParams header !! "expires" = Some x ->
         parseHeaderParams header !! "endpointId" = Some i ->
         registerEndpoint io cookies_arg skypeToken messagesHostname 2 w =
           {| result :=
                Return {| value := v;
                          expirationDate := newDate (mul (Finite 1000) (parseInt10 x));
                          endpointId := i;
                          raw := header;
                          host := location_host |};
              attempts :=
                [try; {| req := buildRequest cookies_arg skypeToken location_host w'; res := res2 |}];
              world := w2 |}).
Proof.
  intros Hpost Hexp Hloc Hhost Hne try.
  assert (Hit : forall tries0,
             iteration io cookies_arg skypeToken messagesHostname tries0 w =
               (Continue location_host, tries0 ++ [try], w')).
  { intros tries0. rewrite (iteration_exchange _ _ _ _ _ _ _ _ Hpost).
    rewrite (classify_redirect _ _ _ _ _ _ Hexp Hloc Hhost Hne). reflexivity. }
  split; [apply Hit |]. split; [apply loop_continue, Hit |].
  intros res2 w2 l2 header v x i _ Hpost2 H201 Hloc2 Hhost2 Htok Hv Hx Hi.
  rewrite registerEndpoint_passes by lia.
  rewrite (loop_continue _ _ _ _ _ _ _ _ _ _ (Hit [])).
  apply loop_leave. rewrite (iteration_exchange _ _ _ _ _ _ _ _ Hpost2).
  rewrite (classify_token _ _ _ _ l2 header) by (unfold expectedStatus; auto).
  rewrite (readSetRegistrationTokenHeader_present _ _ _ _ _ Hv Hx Hi). reflexivity.
Qed.

(** C7. A response whose status is neither 429 nor 201 nor 301 ends the
    call, at whatever pass it comes: [registerEndpoint] throws
    EndpointRegistrationError with the cause UnexpectedHttpStatus, which
    holds the response, and so its status, and the expected set, whose
    members are 201 and 301. *)
Theorem registerEndpoint_unexpected_status
  (passes : nat) (messagesHostname : Hostname) (tries : list Try) (w w' : World)
  (res : Response) :
  post io (buildRequest cookies_arg skypeToken messagesHostname w) w = (res, w') ->
  statusCode res <> 429 ->
  ~ expectedStatus (statusCode res) ->
  let req := buildRequest cookies_arg skypeToken messagesHostname w in
  let try := {| req := req; res := res |} in
  let incident := EndpointRegistrationError
                    (UnexpectedHttpStatus res {[ 201; 301 ]} req) ERROR_MESSAGE in
  loop io cookies_arg skypeToken (S passes) messagesHostname tries w =
    {| result := Throw incident; attempts := tries ++ [try]; world := w' |}
  /\ (forall retries, 0 <= retries ->
        registerEndpoint io cookies_arg skypeToken messagesHostname retries w =
          {| result := Throw incident; attempts := [try]; world := w' |})
  /\ (forall status : Z,
         status ∈ ({[ 201; 301 ]} : gset Z) <-> status = 201 \/ status = 301).
Proof.
  intros Hpost H429 Hexp req try incident.
  assert (Hloop : forall passes0 tries0,
             loop io cookies_arg skypeToken (S passes0) messagesHostname tries0 w =
               {| result := Throw incident; attempts := tries0 ++ [try]; world := w' |}).
  { intros passes0 tries0. apply loop_leave.
    rewrite (iteration_exchange _ _ _ _ _ _ _ _ Hpost).
    rewrite classify_unexpected by assumption. reflexivity. }
  split; [apply Hloop |]. split.
  - intros retries Hr. rewrite registerEndpoint_passes by exact Hr. apply Hloop.
  - intros status. set_solver.
Qed.

(** C8. A response with status 201 or 301, 201 included, that has no
    Location header ends the call with the cause MissingHeader for the
    name Location; and a response with such a status whose Location has
    the host of the current hostname but that has no Set-Registrationtoken
    header ends it with the cause MissingHeader for the name
    Set-Registrationtoken. *)
Theorem registerEndpoint_missing_header
  (passes : nat) (messagesHostname : Hostname) (tries : list Try) (w w' : World)
  (res : Response) :
  post io (buildRequest cookies_arg skypeToken messagesHostname w) w = (res, w') ->
  expectedStatus (statusCode res) ->
  let req := buildRequest cookies_arg skypeToken messagesHostname w in
  let try := {| req := req; res := res |} in
  let missing (headerName : string) : Run World :=
    {| result := Throw (EndpointRegistrationError
                          (MissingHeader res headerName req) ERROR_MESSAGE);
       attempts := tries ++ [try];
       world := w' |} in
  (headers res !! "location" = None ->
   loop io cookies_arg skypeToken (S passes) messagesHostname tries w = missing "Location")
  /\ (forall locationHeader : string,
         headers res !! "location" = Some locationHeader ->
         url_host (parseUri locationHeader) = Some messagesHostname ->
         headers res !! "set-registrationtoken" = None ->
         loop io cookies_arg skypeToken (S passes) messagesHostname tries w = missing "Set-Registrationtoken").
Proof.
  intros Hpost Hexp req try missing. subst missing. split.
  - intros Hloc. apply loop_leave.
    rewrite (iteration_exchange _ _ _ _ _ _ _ _ Hpost).
    rewrite classify_no_location by assumption. reflexivity.
  - intros l Hloc Hhost Htok. apply loop_leave.
    rewrite (iteration_exchange _ _ _ _ _ _ _ _ Hpost).
    rewrite (classify_no_token _ _ _ _ l) by assumption. reflexivity.
Qed.

(** C9, as the code has it. A token that [registerEndpoint] returns was
    read from the Set-Registrationtoken header of the last response: its
    value and endpointId are the strings that the parsed header has for
    registrationToken and endpointId, empty or not; its expiration is the
    date of 1000 times the parsed expires; its raw field is the header;
    and its host is the hostname that the last request was sent to, which
    is also the host of the Location of the last response: a string, or
    [null] when that Location has no host. *)
Theorem registerEndpoint_token
  (messagesHostname : Hostname) (retries : Z) (w : World) (tok : RegistrationToken) :
  result (registerEndpoint io cookies_arg skypeToken messagesHostname retries w) = Return tok ->
  exists (before : list Try) (request : PostOptions) (response : Response)
         (locationHeader header x : string),
    attempts (registerEndpoint io cookies_arg skypeToken messagesHostname retries w) =
      before ++ [{| req := request; res := response |}]
    /\ uri request = endpoints (host tok)
    /\ headers response !! "location" = Some locationHeader
    /\ url_host (parseUri locationHeader) = Some (host tok)
    /\ headers response !! "set-registrationtoken" = Some header
    /\ raw tok = header
    /\ parseHeaderParams header !! "registrationToken" = Some (value tok)
    /\ parseHeaderParams header !! "endpointId" = Some (endpointId tok)
    /\ parseHeaderParams header !! "expires" = Some x
    /\ expirationDate tok = newDate (mul (Finite 1000) (parseInt10 x)).
Proof.
  intros Hret. unfold registerEndpoint in *.
  destruct (loop_return _ _ _ _ _ _ _ _ Hret)
    as (before & request & response & l & header & Hatt & Huri & _ & Hloc & Hhost
        & Htok & Hread).
  destruct (readSetRegistrationTokenHeader_return _ _ _ Hread)
    as (Hv & Hi & (x & Hx & Hdate) & Hraw & _).
  exists before, request, response, l, header, x. repeat split; assumption.
Qed.

End Properties.

(** ** The scenarios *)

Import Scenario.

Lemma request_independent_of_world (hostname : Hostname) (w : Scenario.World) :
  buildRequest jar Scenario.skypeToken hostname w = request hostname.
Proof. reflexivity. Qed.

(** Scenario A of the spec: a 201 from the requested host with its token. *)
Example scenario_A :
  run 2 [created hostA (Some TOKEN_HEADER)] =
    {| result := Return tokenA;
       attempts := [{| req := request hostA; res := created hostA (Some TOKEN_HEADER) |}];
       world := [] |}.
Proof. vm_compute. reflexivity. Qed.

(** The rate limit comes first of two responses, with two retries left. *)
Lemma registerEndpoint_rate_limited_witness :
  run 2 [rateLimited; created hostA (Some TOKEN_HEADER)] =
    {| result := Throw (EndpointRegistrationError
                          (LoginRateLimitExceeded
                             [{| req := request hostA; res := rateLimited |}])
                          ERROR_MESSAGE);
       attempts := [{| req := request hostA; res := rateLimited |}];
       world := [created hostA (Some TOKEN_HEADER)] |}.
Proof.
  refine (proj1 (registerEndpoint_rate_limited Scenario.io jar Scenario.skypeToken hostA 2
                   [rateLimited; created hostA (Some TOKEN_HEADER)]
                   [created hostA (Some TOKEN_HEADER)] rateLimited _ _ _)).
  - lia.
  - reflexivity.
  - reflexivity.
Defined.

(** Scenario D of the spec: no retry, and the first response redirects. *)
Lemma registerEndpoint_retries_exhausted_witness :
  run 0 [redirectToB] =
    {| result := Throw (EndpointRegistrationError
                          (EndpointRedirectionsLimit
                             [{| req := request hostA; res := redirectToB |}])
                          ERROR_MESSAGE);
       attempts := [{| req := request hostA; res := redirectToB |}];
       world := [] |}.
Proof.
  assert (H0 : 0 <= 0) by lia.
  pose proof (registerEndpoint_retries_exhausted Scenario.io jar Scenario.skypeToken
                hostA 0 [redirectToB] H0) as (_ & _ & _ & _ & Hredirect).
  apply (Hredirect eq_refl redirectToB [] (locationOf hostB) hostB).
  - reflexivity.
  - reflexivity.
  - vm_compute. reflexivity.
  - vm_compute. reflexivity.
  - apply strictEquals_neq. reflexivity.
Defined.

(** Scenario B of the spec: a redirection to [hostB], then its token. *)
Lemma registerEndpoint_redirect_witness :
  run 2 [redirectToB; created hostB (Some TOKEN_HEADER)] =
    {| result := Return {| value := "abc";
                           expirationDate := DateAt 1000000;
                           endpointId := "{e1}";
                           raw := TOKEN_HEADER;
                           host := hostB |};
       attempts := [{| req := request hostA; res := redirectToB |};
                    {| req := request hostB; res := created hostB (Some TOKEN_HEADER) |}];
       world := [] |}.
Proof.
  assert (Hexp : expectedStatus (statusCode redirectToB)) by (right; reflexivity).
  assert (Hloc : headers redirectToB !! "location" = Some (locationOf hostB))
    by (vm_compute; reflexivity).
  assert (Hhost : url_host (parseUri (locationOf hostB)) = Some hostB)
    by (vm_compute; reflexivity).
  assert (Hne : hostB <> hostA) by (apply strictEquals_neq; reflexivity).
  pose proof (registerEndpoint_redirect Scenario.io jar Scenario.skypeToken 2 hostA []
                [redirectToB; created hostB (Some TOKEN_HEADER)]
                [created hostB (Some TOKEN_HEADER)] redirectToB (locationOf hostB) hostB
                eq_refl Hexp Hloc Hhost Hne) as (_ & _ & Hscenario).
  apply (Hscenario (created hostB (Some TOKEN_HEADER)) [] (locationOf hostB)
           TOKEN_HEADER "abc" "1000" "{e1}").
  - reflexivity.
  - reflexivity.
  - reflexivity.
  - vm_compute. reflexivity.
  - vm_compute. reflexivity.
  - vm_compute. reflexivity.
  - vm_compute. reflexivity.
  - vm_compute. reflexivity.
  - vm_compute. reflexivity.
Defined.

(** A server error as the first response. *)
Lemma registerEndpoint_unexpected_status_witness :
  run 2 [serverError] =
    {| result := Throw (EndpointRegistrationError
                          (UnexpectedHttpStatus serverError {[ 201; 301 ]} (request hostA))
                          ERROR_MESSAGE);
       attempts := [{| req := request hostA; res := serverError |}];
       world := [] |}.
Proof.
  assert (H429 : statusCode serverError <> 429) by (vm_compute; lia).
  assert (Hexp : ~ expectedStatus (statusCode serverError))
    by (unfold expectedStatus; vm_compute; lia).
  assert (H2 : 0 <= 2) by lia.
  exact (proj1 (proj2 (registerEndpoint_unexpected_status Scenario.io jar
                         Scenario.skypeToken 0 hostA [] [serverError] [] serverError
                         eq_refl H429 Hexp)) 2 H2).
Defined.

(** Scenario E of the spec, and a 201 without Location. *)
Lemma registerEndpoint_missing_header_witness :
  result (run 2 [created hostA None]) =
    Throw (EndpointRegistrationError
             (MissingHeader (created hostA None) "Set-Registrationtoken" (request hostA))
             ERROR_MESSAGE)
  /\ result (run 2 [response 201 None None]) =
       Throw (EndpointRegistrationError
                (MissingHeader (response 201 None None) "Location" (request hostA))
                ERROR_MESSAGE).
Proof.
  assert (Hexp : forall l t, expectedStatus (statusCode (response 201 l t)))
    by (intros l t; left; reflexivity).
  split.
  - pose proof (registerEndpoint_missing_header Scenario.io jar Scenario.skypeToken
                  2 hostA [] [created hostA None] [] (created hostA None)
                  eq_refl (Hexp _ _)) as [_ Htoken].
    change (run 2 [created hostA None])
      with (loop Scenario.io jar Scenario.skypeToken 3 hostA [] [created hostA None]).
    rewrite (Htoken (locationOf hostA)).
    + reflexivity.
    + vm_compute. reflexivity.
    + vm_compute. reflexivity.
    + vm_compute. reflexivity.
  - pose proof (registerEndpoint_missing_header Scenario.io jar Scenario.skypeToken
                  2 hostA [] [response 201 None None] [] (response 201 None None)
                  eq_refl (Hexp _ _)) as [Hlocation _].
    change (run 2 [response 201 None None])
      with (loop Scenario.io jar Scenario.skypeToken 3 hostA [] [response 201 None None]).
    rewrite Hlocation.
    + reflexivity.
    + vm_compute. reflexivity.
Defined.

(** The token of scenario A, traced back to the last exchange. *)
Lemma registerEndpoint_token_witness :
  exists (request : PostOptions) (header : string),
    uri request = "https://a.example.com/v1/users/ME/endpoints"
    /\ raw tokenA = header
    /\ utils.parseHeaderParams header !! "registrationToken" = Some "abc".
Proof.
  assert (Hret : result (run 2 [created hostA (Some TOKEN_HEADER)]) = Return tokenA)
    by (vm_compute; reflexivity).
  destruct (registerEndpoint_token Scenario.io jar Scenario.skypeToken hostA 2
              [created hostA (Some TOKEN_HEADER)] tokenA Hret)
    as (before & request & response & l & header & x & _ & Huri & _ & _ & _ & Hraw & Hv & _).
  exists request, header. repeat split; assumption.
Defined.

(** C9, against the claim: the 201 of the requested host whose header is
    [registrationToken=; expires=1000; endpointId=] makes [registerEndpoint]
    return a token, and the value and the endpointId of this token are the
    empty string. *)
Lemma registerEndpoint_token_may_be_empty :
  exists tok : RegistrationToken,
    run 2 [created hostA (Some EMPTY_TOKEN_HEADER)] =
      {| result := Return tok;
         attempts := [{| req := request hostA;
                         res := created hostA (Some EMPTY_TOKEN_HEADER) |}];
         world := [] |}
    /\ tok = {| value := EmptyString;
                expirationDate := DateAt 1000000;
                endpointId := EmptyString;
                raw := EMPTY_TOKEN_HEADER;
                host := hostA |}
    /\ ~ (value tok <> EmptyString /\ endpointId tok <> EmptyString).
Proof.
  eexists. split; [vm_compute; reflexivity |]. split; [reflexivity |].
  cbn. intros [Hvalue _]. apply Hvalue. reflexivity.
Qed.

(** C5, on the code: after a redirection, a server error is thrown with the
    cause UnexpectedHttpStatus, which holds the last request and response
    only, while the [tries] array holds the two exchanges. *)
Lemma registerEndpoint_error_without_history :
  run 1 [redirectToB; serverError] =
    {| result := Throw (EndpointRegistrationError
                          (UnexpectedHttpStatus serverError {[ 201; 301 ]} (request hostB))
                          ERROR_MESSAGE);
       attempts := [{| req := request hostA; res := redirectToB |};
                    {| req := request hostB; res := serverError |}];
       world := [] |}.
Proof. vm_compute. reflexivity. Qed.

(** C6, on the code: [url.parse] gives the host [null] for a Location
    without host, which line 109 does not test for. The response is taken
    for a redirection: the call does not stop at it, the next request goes
    to the endpoints of [null], and what the caller gets is the incident of
    the exhausted loop when there is no retry, or even a token whose host is
    [null] when the next response has no host in its Location either. No
    incident names the Location. *)
Lemma registerEndpoint_location_without_host :
  url_host (parseUri "/v1/users/ME/endpoints") = Some NullHost
  /\ run 0 [redirectToPath] =
       {| result := Throw (EndpointRegistrationError
                             (EndpointRedirectionsLimit
                                [{| req := request hostA; res := redirectToPath |}])
                             ERROR_MESSAGE);
          attempts := [{| req := request hostA; res := redirectToPath |}];
          world := [] |}
  /\ run 2 [redirectToPath; createdAtPath (Some TOKEN_HEADER)] =
       {| result := Return {| value := "abc";
                              expirationDate := DateAt 1000000;
                              endpointId := "{e1}";
                              raw := TOKEN_HEADER;
                              host := NullHost |};
          attempts := [{| req := request hostA; res := redirectToPath |};
                       {| req := request NullHost;
                          res := createdAtPath (Some TOKEN_HEADER) |}];
          world := [] |}
  /\ uri (request NullHost) = "https://null/v1/users/ME/endpoints".
Proof. vm_compute. auto. Qed.

(** ** Decimal text, and the range of dates *)

(** At 2^53 and above [roundInt] keeps the magnitude at 2^53 or above. *)
Lemma roundInt_large (z : Z) :
  2 ^ 53 <= Z.abs z ->
  (exists s, roundInt z = Infinity s)
  \/ (exists r, roundInt z = Finite r /\ 2 ^ 53 <= Z.abs r).
Proof.
  intros Hz. unfold roundInt.
  assert (Hpos : 0 < Z.abs z) by lia.
  assert (Hlog : 53 <= Z.log2 (Z.abs z)) by (apply Z.log2_le_pow2; lia).
  pose proof (Z.log2_spec _ Hpos) as [Hlow _].
  remember (Z.abs z) as a eqn:Ha.
  remember (Z.log2 a - 52) as k eqn:Hk.
  assert (Hk1 : 1 <= k) by lia.
  destruct (Z.leb_spec k 0) as [Hle | _]; [lia |].
  assert (Hsplit : 2 ^ Z.log2 a = 2 ^ 52 * 2 ^ k).
  { rewrite <- Z.pow_add_r by lia. f_equal. lia. }
  assert (H2k : 2 <= 2 ^ k).
  { change 2 with (2 ^ 1) at 1. apply Z.pow_le_mono_r; lia. }
  assert (Hq : 2 ^ 52 <= a / 2 ^ k).
  { apply Z.div_le_lower_bound; lia. }
  remember (a / 2 ^ k) as q eqn:Hqdef.
  remember (if (2 ^ (k - 1) <? a mod 2 ^ k) || ((2 ^ (k - 1) =? a mod 2 ^ k) && Z.odd q)
            then q + 1 else q) as q' eqn:Hq'.
  assert (Hq'q : q <= q') by (subst q'; destruct (_ || _); lia).
  assert (Hr : 2 ^ 53 <= q' * 2 ^ k).
  { change (2 ^ 53) with (2 ^ 52 * 2). change (2 ^ 52) with 4503599627370496 in *. nia. }
  destruct (DOUBLE_OVERFLOW <=? q' * 2 ^ k); [left; eauto | right].
  eexists. split; [reflexivity |].
  rewrite Z.abs_mul.
  replace (Z.abs (Z.sgn z)) with 1 by (destruct z; cbn in *; lia).
  lia.
Qed.

(** Past the last date, 1000 times the seconds is no date. *)
Lemma newDate_out_of_range (n : Z) :
  8640000000000 < Z.abs n -> newDate (mul (Finite 1000) (Finite n)) = InvalidDate.
Proof.
  intros Hn. unfold mul.
  destruct (Z.eqb_spec (1000 * n) 0) as [E | _]; [lia |].
  destruct (Z_lt_le_dec (Z.abs (1000 * n)) (2 ^ 53)) as [Hsmall | Hbig].
  - rewrite roundInt_exact by exact Hsmall. unfold newDate, MAX_TIME.
    destruct (Z.leb_spec (Z.abs (1000 * n)) 8640000000000000); [lia | reflexivity].
  - destruct (roundInt_large _ Hbig) as [[s ->] | (r & -> & Hr)]; [reflexivity |].
    unfold newDate, MAX_TIME.
    change (2 ^ 53) with 9007199254740992 in Hr.
    destruct (Z.leb_spec (Z.abs r) 8640000000000000); [lia | reflexivity].
Qed.

Lemma newDate_infinite_or_large (x : number) :
  (exists s, x = Infinity s) \/ (exists r, x = Finite r /\ 2 ^ 53 <= Z.abs r) ->
  newDate (mul (Finite 1000) x) = InvalidDate.
Proof.
  intros [[s ->] | (r & -> & Hr)]; [reflexivity |].
  apply newDate_out_of_range. change (2 ^ 53) with 9007199254740992 in Hr. lia.
Qed.

Lemma digitOf_pretty_N_char (d : N) :
  (d < 10)%N -> digitOf (pretty_N_char d) = Some (Z.of_N d).
Proof.
  intros Hd.
  assert (d = 0 \/ d = 1 \/ d = 2 \/ d = 3 \/ d = 4 \/ d = 5 \/ d = 6 \/ d = 7
          \/ d = 8 \/ d = 9)%N as Hcases by lia.
  repeat destruct Hcases as [-> | Hcases]; try subst d; reflexivity.
Qed.

(** The digits that [pretty] writes in front of [s] are read back. *)
Lemma readDigits_pretty_N_go (x : N) :
  forall s : string, readDigits (pretty_N_go x s) 0 = readDigits s (Z.of_N x).
Proof.
  induction (N.lt_wf_0 x) as [x _ IH]. intros s.
  destruct (N.eq_dec x 0%N) as [-> | Hx]; [reflexivity |].
  rewrite pretty_N_go_step by lia.
  rewrite IH by (apply N.div_lt; lia).
  cbn [readDigits]. rewrite digitOf_pretty_N_char by (apply N.mod_lt; lia).
  f_equal. pose proof (N.div_mod x 10). lia.
Qed.

Lemma startsWithDigit_pretty_N_go (x : N) :
  forall s : string,
    startsWithDigit s = true -> startsWithDigit (pretty_N_go x s) = true.
Proof.
  induction (N.lt_wf_0 x) as [x _ IH]. intros s Hs.
  destruct (N.eq_dec x 0%N) as [-> | Hx]; [exact Hs |].
  rewrite pretty_N_go_step by lia.
  apply IH; [apply N.div_lt; lia |].
  cbn. unfold isDigit. rewrite digitOf_pretty_N_char by (apply N.mod_lt; lia).
  reflexivity.
Qed.

Lemma pretty_positive_digits (p : positive) :
  startsWithDigit (pretty p) = true /\ readDigits (pretty p) 0 = Z.pos p.
Proof.
  unfold pretty, pretty_positive, pretty, pretty_N.
  destruct (decide (N.pos p = 0%N)) as [E | _]; [discriminate E |]. split.
  - rewrite pretty_N_go_step by lia. apply startsWithDigit_pretty_N_go.
    cbn. unfold isDigit. rewrite digitOf_pretty_N_char by (apply N.mod_lt; lia).
    reflexivity.
  - rewrite readDigits_pretty_N_go. reflexivity.
Qed.

(** [parseInt] reads the decimal text of an integer as the double nearest
    to it. *)
Lemma parseInt10_pretty_round (n : Z) :
  parseInt10 (pretty n) = if n =? 0 then Finite 0 else roundInt n.
Proof.
  destruct n as [| p | p]; [reflexivity | |].
  - destruct (pretty_positive_digits p) as [Hstart Hdigits].
    change (pretty (Z.pos p)) with (pretty p).
    unfold parseInt10.
    destruct (startsWithDigit_plain _ Hstart) as [-> ->].
    rewrite Hstart, Hdigits. reflexivity.
  - destruct (pretty_positive_digits p) as [Hstart Hdigits].
    change (pretty (Z.neg p)) with ("-" +:+ pretty p).
    rewrite append_cons, append_nil_l.
    unfold parseInt10. cbn [trimStart]. 
    change (isStrWhiteSpaceChar "-") with false. cbn [readSign].
    rewrite Hstart, Hdigits. reflexivity.
Qed.

(** X13. When the parsed header has the decimal text of an integer [n] for
    expires, the token is returned with the date of [1000 * n] milliseconds
    if [n] is at most 8 640 000 000 000 in magnitude, the last second that
    a date can hold, and with the invalid date otherwise; no incident is
    thrown for an expires out of range. *)
Theorem readSetRegistrationTokenHeader_decimal_expires :
  forall (World : Type) (imports : Imports World) (hostname : Hostname) (header v i : string) (n : Z),
    parseHeaderParams header !! "registrationToken" = Some v ->
    parseHeaderParams header !! "expires" = Some (pretty n) ->
    parseHeaderParams header !! "endpointId" = Some i ->
    exists tok,
      readSetRegistrationTokenHeader hostname header = Return tok
      /\ expirationDate tok =
           if Z.abs n <=? 8640000000000 then DateAt (1000 * n) else InvalidDate.
Proof.
  intros World imports hostname header v i n Hv Hx Hi.
  eexists. split; [apply readSetRegistrationTokenHeader_present; eassumption |].
  cbn [expirationDate]. rewrite parseInt10_pretty_round.
  destruct (Z.eqb_spec n 0) as [-> | Hn0]; [reflexivity |].
  destruct (Z.leb_spec (Z.abs n) 8640000000000) as [Hin | Hout].
  - rewrite roundInt_exact by (change (2 ^ 53) with 9007199254740992; lia).
    apply newDate_seconds, Hin.
  - destruct (Z_lt_le_dec (Z.abs n) (2 ^ 53)) as [Hsmall | Hbig].
    + rewrite roundInt_exact by exact Hsmall. apply newDate_out_of_range, Hout.
    + apply newDate_infinite_or_large, roundInt_large, Hbig.
Qed.

(** X14. [parseInt(String(n), 10)] is [n] for every integer below 2^53 in
    magnitude: the decimal text that the LockAndKey header writes for the
    time is read back, by the reading that expires gets, as the same
    number. *)
Theorem parseInt10_pretty :
  forall n : Z, Z.abs n < 2 ^ 53 -> parseInt10 (pretty n) = Finite n.
Proof.
  intros n Hn. rewrite parseInt10_pretty_round.
  destruct (Z.eqb_spec n 0) as [-> | _]; [reflexivity |].
  apply roundInt_exact, Hn.
Qed.

(** ** What a run of the loop leaves behind *)

Section ClassifyCases.

Context {World : Type} {imports : Imports World}.
Variables (messagesHostname : Hostname) (tries : list Try).
Variables (req : PostOptions) (res : Response).

Lemma expectedStatus_dec (status : Z) : {expectedStatus status} + {~ expectedStatus status}.
Proof.
  unfold expectedStatus.
  destruct (Z.eq_dec status 201); [left; tauto |].
  destruct (Z.eq_dec status 301); [left; tauto | right; tauto].
Qed.

(** The seven ways through the loop body. *)
Lemma classify_cases :
  (statusCode res = 429
   /\ classify messagesHostname tries req res =
        registrationError (LoginRateLimitExceeded tries))
  \/ (statusCode res <> 429 /\ ~ expectedStatus (statusCode res)
      /\ classify messagesHostname tries req res =
           registrationError (UnexpectedHttpStatus res {[ 201; 301 ]} req))
  \/ (expectedStatus (statusCode res) /\ headers res !! "location" = None
      /\ classify messagesHostname tries req res =
           registrationError (MissingHeader res "Location" req))
  \/ (expectedStatus (statusCode res)
      /\ (exists l, headers res !! "location" = Some l
                    /\ url_host (parseUri l) = None)
      /\ classify messagesHostname tries req res =
           Leave (Throw (ParseError "Expected location to define host")))
  \/ (expectedStatus (statusCode res)
      /\ exists l h, headers res !! "location" = Some l
                     /\ url_host (parseUri l) = Some h
                     /\ h <> messagesHostname
                     /\ classify messagesHostname tries req res = Continue h)
  \/ (expectedStatus (statusCode res)
      /\ (exists l, headers res !! "location" = Some l
                    /\ url_host (parseUri l) = Some messagesHostname)
      /\ headers res !! "set-registrationtoken" = None
      /\ classify messagesHostname tries req res =
           registrationError (MissingHeader res "Set-Registrationtoken" req))
  \/ (expectedStatus (statusCode res)
      /\ exists l header,
          headers res !! "location" = Some l
          /\ url_host (parseUri l) = Some messagesHostname
          /\ headers res !! "set-registrationtoken" = Some header
          /\ classify messagesHostname tries req res =
               Leave (readSetRegistrationTokenHeader messagesHostname header)).
Proof.
  destruct (Z.eq_dec (statusCode res) 429) as [H429 | H429].
  { left. split; [exact H429 | apply classify_rate_limited, H429]. }
  right. destruct (expectedStatus_dec (statusCode res)) as [Hexp | Hexp].
  2: { left. repeat split; try assumption. apply classify_unexpected; assumption. }
  right. destruct (headers res !! "location") as [l |] eqn:Hloc.
  2: { left. repeat split; try assumption. apply classify_no_location; assumption. }
  right. destruct (url_host (parseUri l)) as [h |] eqn:Hhost.
  2: { left. split; [exact Hexp |]. split; [eauto |].
       apply (classify_no_host _ _ _ _ l); assumption. }
  right. destruct (strictEquals_spec h messagesHostname) as [-> | Hne].
  2: { left. split; [exact Hexp |]. exists l, h. repeat split; try assumption.
       apply (classify_redirect _ _ _ _ l); assumption. }
  right. destruct (headers res !! "set-registrationtoken") as [header |] eqn:Htok.
  - right. split; [exact Hexp |]. exists l, header. repeat split; try assumption.
    apply (classify_token _ _ _ _ l); assumption.
  - left. split; [exact Hexp |]. split; [eauto |]. split; [reflexivity |].
    apply (classify_no_token _ _ _ _ l); assumption.
Qed.

(** A pass goes on only after a redirection. *)
Lemma classify_continue (h : Hostname) :
  classify messagesHostname tries req res = Continue h ->
  expectedStatus (statusCode res)
  /\ exists l, headers res !! "location" = Some l
               /\ url_host (parseUri l) = Some h
               /\ h <> messagesHostname.
Proof.
  intros Hc.
  destruct classify_cases
    as [[_ H] | [(_ & _ & H) | [(_ & _ & H) | [(_ & _ & H) |
        [(Hexp & l & h' & Hl & Hh & Hne & H) | [(_ & _ & _ & H) |
        (_ & l & t & _ & _ & _ & H)]]]]]];
    rewrite H in Hc; try discriminate Hc.
  injection Hc as <-. eauto.
Qed.

End ClassifyCases.

Section Runs.

Context {World : Type} {imports : Imports World}.
Variable io : HttpIo World.
Variable cookies_arg : CookieStore.
Variable skypeToken : SkypeToken.

(** What the tries added by the loop are: the log of the exchanges from the
    first world to the last, along the redirections from the first
    hostname, each request built by the loop, one try a pass at most. *)
Lemma loop_trace (passes : nat) :
  forall (messagesHostname : Hostname) (tries : list Try) (w : World),
  exists added : list Try,
    attempts (loop io cookies_arg skypeToken passes messagesHostname tries w) =
      tries ++ added
    /\ (length added <= passes)%nat
    /\ replays io w added
         (world (loop io cookies_arg skypeToken passes messagesHostname tries w))
    /\ redirectChain messagesHostname added
    /\ Forall (built cookies_arg skypeToken) added.
Proof.
  induction passes as [| passes IH]; intros messagesHostname tries w.
  - exists []. cbn. rewrite app_nil_r. repeat split; auto.
  - cbn [loop]. unfold iteration.
    destruct (post io (buildRequest cookies_arg skypeToken messagesHostname w) w)
      as [res0 w'] eqn:Hpost.
    set (try := {| req := buildRequest cookies_arg skypeToken messagesHostname w;
                   res := res0 |}).
    assert (Hbuilt : built cookies_arg skypeToken try) by (exists messagesHostname, w; reflexivity).
    assert (Hres : res try = (post io (req try) w).1) by (cbn; rewrite Hpost; reflexivity).
    assert (Hw : (post io (req try) w).2 = w') by (cbn; rewrite Hpost; reflexivity).
    destruct (classify messagesHostname (tries ++ [try]) (req try) res0)
      as [h | r] eqn:Hcl; cbn [req try] in Hcl; rewrite Hcl.
    + destruct (IH h (tries ++ [try]) w') as (added & Hatt & Hlen & Hrep & Hchain & Hall).
      exists (try :: added). rewrite Hatt, <- app_assoc. cbn [app length].
      split; [reflexivity |]. split; [lia |]. split; [| split].
      * cbn [replays]. rewrite Hw. split; assumption.
      * cbn [redirectChain]. split; [reflexivity |].
        destruct added as [| try' added]; [exact I |].
        apply classify_continue in Hcl as (Hexp & l & Hl & Hh & Hne).
        split; [exact Hexp |]. exists l, h. auto.
      * constructor; assumption.
    + exists [try]. cbn [attempts world length].
      split; [reflexivity |]. split; [lia |]. split; [| split].
      * cbn [replays]. rewrite Hw. split; [exact Hres | reflexivity].
      * cbn. auto.
      * constructor; [exact Hbuilt | constructor].
Qed.

(** A run ends by the condition of the loop, all passes having gone on, or
    in the pass of the last try, by what the body makes of its response. *)
Lemma loop_last (passes : nat) :
  forall (messagesHostname : Hostname) (tries : list Try) (w : World),
    let run := loop io cookies_arg skypeToken passes messagesHostname tries w in
    passesContinue io cookies_arg skypeToken passes messagesHostname tries w
    \/ exists (before : list Try) (hostname : Hostname) (request : PostOptions)
              (response : Response),
        attempts run = before ++ [{| req := request; res := response |}]
        /\ uri request = endpoints hostname
        /\ classify hostname (attempts run) request response = Leave (result run).
Proof.
  induction passes as [| passes IH]; intros messagesHostname tries w run; subst run.
  - left. exact I.
  - cbn [loop passesContinue]. unfold iteration.
    destruct (post io (buildRequest cookies_arg skypeToken messagesHostname w) w)
      as [res0 w'].
    destruct (classify messagesHostname _ _ res0) as [h | r] eqn:Hcl.
    + apply IH.
    + right. exists tries, messagesHostname. eexists _, _. cbn [attempts result].
      split; [reflexivity |]. split; [reflexivity | exact Hcl].
Qed.

(** The last try of a run that did not end by the condition of the loop. *)
Lemma loop_last_leave (passes : nat) (messagesHostname : Hostname) (tries : list Try)
  (w : World) :
  let run := loop io cookies_arg skypeToken passes messagesHostname tries w in
  (forall t message,
      result run <> Throw (EndpointRegistrationError
                             (EndpointRedirectionsLimit t) message)) ->
  exists (before : list Try) (hostname : Hostname) (request : PostOptions)
         (response : Response),
    attempts run = before ++ [{| req := request; res := response |}]
    /\ uri request = endpoints hostname
    /\ classify hostname (attempts run) request response = Leave (result run).
Proof.
  intros run Hnot. subst run.
  destruct (loop_last passes messagesHostname tries w) as [Hc | Hlast]; [| exact Hlast].
  destruct (loop_limit io cookies_arg skypeToken passes messagesHostname tries w)
    as [Hlim _].
  destruct (Hlim Hc) as [Hres _]. contradiction (Hnot _ _ Hres).
Qed.

(** With passes to spare a run is what it is without them. *)
Lemma loop_more_passes (passes extra : nat) :
  forall (messagesHostname : Hostname) (tries : list Try) (w : World),
    (forall t message,
        result (loop io cookies_arg skypeToken passes messagesHostname tries w) <>
          Throw (EndpointRegistrationError (EndpointRedirectionsLimit t) message)) ->
    loop io cookies_arg skypeToken (passes + extra) messagesHostname tries w =
      loop io cookies_arg skypeToken passes messagesHostname tries w.
Proof.
  induction passes as [| passes IH]; intros messagesHostname tries w Hnot.
  - cbn in Hnot. contradiction (Hnot _ _ eq_refl).
  - cbn [Nat.add loop] in *.
    destruct (iteration io cookies_arg skypeToken messagesHostname tries w)
      as [[[h | r] tries'] w']; [apply IH; exact Hnot | reflexivity].
Qed.

(** More passes only add tries. *)
Lemma loop_attempts_prefix (passes extra : nat) :
  forall (messagesHostname : Hostname) (tries : list Try) (w : World),
    attempts (loop io cookies_arg skypeToken passes messagesHostname tries w)
      `prefix_of`
    attempts (loop io cookies_arg skypeToken (passes + extra) messagesHostname tries w).
Proof.
  induction passes as [| passes IH]; intros messagesHostname tries w.
  - cbn [Nat.add]. destruct (loop_trace extra messagesHostname tries w)
      as (added & -> & _). cbn. exists added. reflexivity.
  - cbn [Nat.add loop].
    destruct (iteration io cookies_arg skypeToken messagesHostname tries w)
      as [[[h | r] tries'] w']; [apply IH | reflexivity].
Qed.

End Runs.

(** ** Further properties of [registerEndpoint] *)

Section TokenHeaderIncident.

Context {World : Type} {imports : Imports World}.

(** What [readSetRegistrationTokenHeader] throws is its own incident, for
    a header that lacks a key. *)
Lemma readSetRegistrationTokenHeader_throw (hostname : Hostname) (header : string) (e : Incident) :
  readSetRegistrationTokenHeader hostname header = Throw e ->
  e = InvalidSetRegistrationTokenHeader header (parseHeaderParams header)
  /\ (parseHeaderParams header !! "registrationToken" = None
      \/ parseHeaderParams header !! "expires" = None
      \/ parseHeaderParams header !! "endpointId" = None).
Proof.
  intros He.
  destruct (readSetRegistrationTokenHeader_cases hostname header)
    as [(v & x & i & Hv & Hx & Hi) | Habs].
  - rewrite (readSetRegistrationTokenHeader_present _ _ _ _ _ Hv Hx Hi) in He.
    discriminate.
  - rewrite (readSetRegistrationTokenHeader_absent _ _ Habs) in He.
    injection He as <-. auto.
Qed.

End TokenHeaderIncident.

Section MoreProperties.

Context {World : Type} {imports : Imports World}.
Variable io : HttpIo World.
Variable cookies_arg : CookieStore.
Variable skypeToken : SkypeToken.

(** The last try of a call whose result [r] is not the incident of the
    exhausted loop, and the way of the body through its response. *)
Ltac last_try Hres :=
  unfold registerEndpoint in *;
  match type of Hres with
  | result (loop ?io ?c ?s ?p ?h ?t ?w) = _ =>
      let Hnot := fresh "Hnot" in
      assert (Hnot : forall t0 message,
                 result (loop io c s p h t w) <>
                   Throw (EndpointRegistrationError
                            (EndpointRedirectionsLimit t0) message))
        by (intros ? ?; rewrite Hres; discriminate);
      destruct (loop_last_leave io c s p h t w Hnot)
        as (before & hl & rq & rs & Hatt & Huri & Hcl);
      clear Hnot; rewrite Hres in Hcl;
      destruct (classify_cases hl
                  (attempts (loop io c s p h t w)) rq rs)
        as [[H429 Hcase] | [(H429 & Hexp & Hcase) | [(Hexp & Hloc & Hcase) |
            [(Hexp & (l & Hloc & Hhost) & Hcase) |
            [(Hexp & l & h' & Hloc & Hhost & Hne & Hcase) |
            [(Hexp & (l & Hloc & Hhost) & Htok & Hcase) |
            (Hexp & l & hdr & Hloc & Hhost & Htok & Hcase)]]]]]];
      rewrite Hcase in Hcl; unfold registrationError in Hcl;
      try discriminate Hcl;
      try match type of Hcl with
          | Leave (readSetRegistrationTokenHeader _ _) = Leave (Throw _) =>
              injection Hcl as Hcl;
              apply readSetRegistrationTokenHeader_throw in Hcl as [Hcl Habs];
              try discriminate Hcl
          end
  end.

(** X1. A response with status 201 or 301 whose Location has the host of
    the current hostname ends the call at that pass with what
    [readSetRegistrationTokenHeader] makes of its Set-Registrationtoken
    header for the current hostname: the token, whose host is that hostname,
    or, for a header that lacks a key, the incident
    InvalidSetRegistrationTokenHeader as it is thrown, not wrapped in an
    EndpointRegistrationError. *)
Theorem registerEndpoint_conclusive
  (passes : nat) (messagesHostname : Hostname) (tries : list Try) (w w' : World)
  (res : Response) (locationHeader header : string) :
  post io (buildRequest cookies_arg skypeToken messagesHostname w) w = (res, w') ->
  expectedStatus (statusCode res) ->
  headers res !! "location" = Some locationHeader ->
  url_host (parseUri locationHeader) = Some messagesHostname ->
  headers res !! "set-registrationtoken" = Some header ->
  let try := {| req := buildRequest cookies_arg skypeToken messagesHostname w;
                res := res |} in
  let outcome := readSetRegistrationTokenHeader messagesHostname header in
  loop io cookies_arg skypeToken (S passes) messagesHostname tries w =
    {| result := outcome; attempts := tries ++ [try]; world := w' |}
  /\ ((exists tok, outcome = Return tok /\ host tok = messagesHostname
                   /\ raw tok = header)
      \/ (outcome = Throw (InvalidSetRegistrationTokenHeader
                             header (parseHeaderParams header))
          /\ (parseHeaderParams header !! "registrationToken" = None
              \/ parseHeaderParams header !! "expires" = None
              \/ parseHeaderParams header !! "endpointId" = None)))
  /\ (forall cause message,
         outcome <> Throw (EndpointRegistrationError cause message)).
Proof.
  intros Hpost Hexp Hloc Hhost Htok try outcome. split; [| split].
  - apply loop_leave. rewrite (iteration_exchange _ _ _ _ _ _ _ _ Hpost).
    rewrite (classify_token _ _ _ _ locationHeader header) by assumption.
    reflexivity.
  - subst outcome.
    destruct (readSetRegistrationTokenHeader messagesHostname header) as [tok | e] eqn:E.
    + left. exists tok.
      destruct (readSetRegistrationTokenHeader_return _ _ _ E) as (_ & _ & _ & Hraw & Hh).
      auto.
    + right. destruct (readSetRegistrationTokenHeader_throw _ _ _ E) as [-> Habs]. auto.
  - intros cause message E. subst outcome.
    destruct (readSetRegistrationTokenHeader_throw _ _ _ E) as [Habs _]. discriminate.
Qed.

(** X3. Every request that [registerEndpoint] sent has the cookie jar of
    the caller, the body of the endpoint features, the endpoints of some
    hostname for its URI, and the four headers LockAndKey, ClientInfo,
    Authentication and BehaviorOverride in this order: LockAndKey made by
    [getLockAndKeyHeader] for some time, ClientInfo and BehaviorOverride
    fixed, Authentication made of the Skype token. *)
Theorem registerEndpoint_requests
  (messagesHostname : Hostname) (retries : Z) (w : World) :
  Forall
    (fun try : Try =>
       cookies (req try) = cookies_arg
       /\ req_body (req try) = ENDPOINT_FEATURES_BODY
       /\ (exists hostname, uri (req try) = endpoints hostname)
       /\ (exists time,
              req_headers (req try) =
                [("LockAndKey", getLockAndKeyHeader time);
                 ("ClientInfo", CLIENT_INFO_HEADER);
                 ("Authentication",
                   stringifyHeaderParams [("skypetoken", skypeToken_value skypeToken)]);
                 ("BehaviorOverride", "redirectAs404")]))
    (attempts (registerEndpoint io cookies_arg skypeToken messagesHostname retries w)).
Proof.
  unfold registerEndpoint.
  destruct (loop_trace io cookies_arg skypeToken (Z.to_nat (retries + 1))
              messagesHostname [] w) as (added & -> & _ & _ & _ & Hall).
  cbn [app]. eapply Forall_impl; [exact Hall |].
  intros try (hostname & w0 & ->). cbn. eauto 7.
Qed.

(** X4. The [tries] array of a call is the log of its exchanges: sending
    the logged requests in their order to [io], from the world of the call,
    gets the logged responses, and leaves the world of the end of the
    call. Nothing else was sent. *)
Theorem registerEndpoint_log
  (messagesHostname : Hostname) (retries : Z) (w : World) :
  let run := registerEndpoint io cookies_arg skypeToken messagesHostname retries w in
  replays io w (attempts run) (world run).
Proof.
  unfold registerEndpoint.
  destruct (loop_trace io cookies_arg skypeToken (Z.to_nat (retries + 1))
              messagesHostname [] w) as (added & Hatt & _ & Hrep & _).
  cbn zeta. rewrite Hatt. exact Hrep.
Qed.

(** X5. The requests of a call follow the redirections: the first goes to
    the endpoints of the hostname of the call, and each later one to those
    of the host of the Location of the response before it, which has status
    201 or 301 and whose host, a string or [null] but not [undefined], is
    another one than the hostname it came from. So only
    the last response of a call can be a rate limit, an unexpected status,
    a response without Location or a conclusive one. *)
Theorem registerEndpoint_redirect_chain
  (messagesHostname : Hostname) (retries : Z) (w : World) :
  redirectChain messagesHostname
    (attempts (registerEndpoint io cookies_arg skypeToken messagesHostname retries w)).
Proof.
  unfold registerEndpoint.
  destruct (loop_trace io cookies_arg skypeToken (Z.to_nat (retries + 1))
              messagesHostname [] w) as (added & -> & _ & _ & Hchain & _).
  exact Hchain.
Qed.

(** X6. A call that does not end by EndpointRedirectionsLimit is the same
    with any larger [retries]: same result, same tries, same world. *)
Theorem registerEndpoint_more_retries
  (messagesHostname : Hostname) (retries retries' : Z) (w : World) :
  retries <= retries' ->
  (forall t message,
      result (registerEndpoint io cookies_arg skypeToken messagesHostname retries w) <>
        Throw (EndpointRegistrationError (EndpointRedirectionsLimit t) message)) ->
  registerEndpoint io cookies_arg skypeToken messagesHostname retries' w =
    registerEndpoint io cookies_arg skypeToken messagesHostname retries w.
Proof.
  intros Hle Hnot. unfold registerEndpoint in *.
  replace (Z.to_nat (retries' + 1))
    with (Z.to_nat (retries + 1) + (Z.to_nat (retries' + 1) - Z.to_nat (retries + 1)))%nat
    by lia.
  apply loop_more_passes, Hnot.
Qed.

(** X7. With a larger [retries] the tries of a call start with the tries
    of the call with the smaller one: more retries only add exchanges after
    those. *)
Theorem registerEndpoint_attempts_prefix
  (messagesHostname : Hostname) (retries retries' : Z) (w : World) :
  retries <= retries' ->
  attempts (registerEndpoint io cookies_arg skypeToken messagesHostname retries w)
    `prefix_of`
  attempts (registerEndpoint io cookies_arg skypeToken messagesHostname retries' w).
Proof.
  intros Hle. unfold registerEndpoint.
  replace (Z.to_nat (retries' + 1))
    with (Z.to_nat (retries + 1) + (Z.to_nat (retries' + 1) - Z.to_nat (retries + 1)))%nat
    by lia.
  apply loop_attempts_prefix.
Qed.

(** X8. When a call throws the cause LoginRateLimitExceeded, the last
    response had status 429, and the [tries] in the cause are all the tries
    of the call. *)
Theorem registerEndpoint_rate_limited_last
  (messagesHostname : Hostname) (retries : Z) (w : World)
  (t : list Try) (message : string) :
  result (registerEndpoint io cookies_arg skypeToken messagesHostname retries w) =
    Throw (EndpointRegistrationError (LoginRateLimitExceeded t) message) ->
  t = attempts (registerEndpoint io cookies_arg skypeToken messagesHostname retries w)
  /\ message = ERROR_MESSAGE
  /\ exists before request response,
      t = before ++ [{| req := request; res := response |}]
      /\ statusCode response = 429.
Proof.
  intros Hres. last_try Hres.
  injection Hcl as <- <-. split; [reflexivity |]. split; [reflexivity |].
  exists before, rq, rs. auto.
Qed.

(** X9. When a call throws the cause UnexpectedHttpStatus, the response and
    the request in the cause are those of the last try, the status of the
    response is none of 429, 201 and 301, and the expected set is that of
    201 and 301. *)
Theorem registerEndpoint_unexpected_status_last
  (messagesHostname : Hostname) (retries : Z) (w : World)
  (response : Response) (expected : gset Z) (request : PostOptions) (message : string) :
  result (registerEndpoint io cookies_arg skypeToken messagesHostname retries w) =
    Throw (EndpointRegistrationError
             (UnexpectedHttpStatus response expected request) message) ->
  expected = {[ 201; 301 ]}
  /\ message = ERROR_MESSAGE
  /\ statusCode response <> 429
  /\ statusCode response <> 201
  /\ statusCode response <> 301
  /\ exists before,
      attempts (registerEndpoint io cookies_arg skypeToken messagesHostname retries w) =
        before ++ [{| req := request; res := response |}].
Proof.
  intros Hres. last_try Hres.
  injection Hcl as <- <- <- <-. unfold expectedStatus in Hexp.
  repeat split; try tauto. exists before. exact Hatt.
Qed.

(** X10. When a call throws the cause MissingHeader, the response and the
    request in the cause are those of the last try, the response has
    status 201 or 301, and the name is Location, which the response lacks,
    or Set-Registrationtoken, which the response lacks while its Location
    has the host that the request went to. *)
Theorem registerEndpoint_missing_header_last
  (messagesHostname : Hostname) (retries : Z) (w : World)
  (response : Response) (headerName : string) (request : PostOptions) (message : string) :
  result (registerEndpoint io cookies_arg skypeToken messagesHostname retries w) =
    Throw (EndpointRegistrationError
             (MissingHeader response headerName request) message) ->
  expectedStatus (statusCode response)
  /\ (exists before,
         attempts (registerEndpoint io cookies_arg skypeToken messagesHostname retries w) =
           before ++ [{| req := request; res := response |}])
  /\ ((headerName = "Location" /\ headers response !! "location" = None)
      \/ (headerName = "Set-Registrationtoken"
          /\ headers response !! "set-registrationtoken" = None
          /\ exists locationHeader hostname,
              headers response !! "location" = Some locationHeader
              /\ url_host (parseUri locationHeader) = Some hostname
              /\ uri request = endpoints hostname)).
Proof.
  intros Hres. last_try Hres.
  - injection Hcl as <- <- <- <-. split; [exact Hexp |]. split; [eauto |]. left. auto.
  - injection Hcl as <- <- <- <-. split; [exact Hexp |]. split; [eauto |]. right.
    split; [reflexivity |]. split; [exact Htok |]. eauto.
Qed.

(** When a call throws ParseError, the last response had status 201 or 301
    and a Location header in which the parse finds a host that is
    [undefined], and the message is that the location is expected to define
    a host. *)
Lemma registerEndpoint_parse_error_last
  (messagesHostname : Hostname) (retries : Z) (w : World) (message : string) :
  result (registerEndpoint io cookies_arg skypeToken messagesHostname retries w) =
    Throw (ParseError message) ->
  message = "Expected location to define host"
  /\ exists before request response locationHeader,
      attempts (registerEndpoint io cookies_arg skypeToken messagesHostname retries w) =
        before ++ [{| req := request; res := response |}]
      /\ expectedStatus (statusCode response)
      /\ headers response !! "location" = Some locationHeader
      /\ url_host (parseUri locationHeader) = None.
Proof.
  intros Hres. last_try Hres.
  injection Hcl as <-. split; [reflexivity |].
  exists before, rq, rs, l. auto.
Qed.

(** X11. When the parse of a URI never gives a host that is [undefined], as
    [url.parse] does not, which gives [null] for a URI without host, no
    call of [registerEndpoint] throws ParseError: the test of line 109
    never holds and line 110 is not reached. *)
Theorem registerEndpoint_parse_error_unreachable
  (messagesHostname : Hostname) (retries : Z) (w : World) (message : string) :
  (forall u : string, url_host (parseUri u) <> None) ->
  result (registerEndpoint io cookies_arg skypeToken messagesHostname retries w) <>
    Throw (ParseError message).
Proof.
  intros Hdefined Hres.
  destruct (registerEndpoint_parse_error_last _ _ _ _ Hres)
    as (_ & before & request & response & l & _ & _ & _ & Hhost).
  exact (Hdefined l Hhost).
Qed.

(** X12. When a call throws InvalidSetRegistrationTokenHeader, the header
    in the incident is the Set-Registrationtoken header of the last
    response, which had status 201 or 301 and a Location with the host that
    the request went to; the map in the incident is the parsed header, and
    it lacks registrationToken, expires or endpointId. *)
Theorem registerEndpoint_invalid_header_last
  (messagesHostname : Hostname) (retries : Z) (w : World)
  (header : string) (parsed : gmap string string) :
  result (registerEndpoint io cookies_arg skypeToken messagesHostname retries w) =
    Throw (InvalidSetRegistrationTokenHeader header parsed) ->
  parsed = parseHeaderParams header
  /\ (parsed !! "registrationToken" = None
      \/ parsed !! "expires" = None
      \/ parsed !! "endpointId" = None)
  /\ exists before request response locationHeader hostname,
      attempts (registerEndpoint io cookies_arg skypeToken messagesHostname retries w) =
        before ++ [{| req := request; res := response |}]
      /\ expectedStatus (statusCode response)
      /\ headers response !! "location" = Some locationHeader
      /\ url_host (parseUri locationHeader) = Some hostname
      /\ uri request = endpoints hostname
      /\ headers response !! "set-registrationtoken" = Some header.
Proof.
  intros Hres. last_try Hres.
  injection Hcl as -> ->. split; [reflexivity |]. split; [exact Habs |].
  exists before, rq, rs, l, hl. auto 7.
Qed.

End MoreProperties.

(** ** Scenarios of the further properties *)

(** A 301 whose Location names the requested host is conclusive. *)
Lemma registerEndpoint_conclusive_witness :
  run 0 [response 301 (Some (locationOf hostA)) (Some TOKEN_HEADER)] =
    {| result := Return tokenA;
       attempts := [{| req := request hostA;
                       res := response 301 (Some (locationOf hostA)) (Some TOKEN_HEADER) |}];
       world := [] |}.
Proof.
  pose (answer := response 301 (Some (locationOf hostA)) (Some TOKEN_HEADER)).
  assert (Hexp : expectedStatus (statusCode answer)) by (right; reflexivity).
  assert (Hloc : headers answer !! "location" = Some (locationOf hostA))
    by (vm_compute; reflexivity).
  assert (Hhost : url_host (parseUri (locationOf hostA)) = Some hostA)
    by (vm_compute; reflexivity).
  assert (Htok : headers answer !! "set-registrationtoken" = Some TOKEN_HEADER)
    by (vm_compute; reflexivity).
  etransitivity.
  - exact (proj1 (registerEndpoint_conclusive Scenario.io jar Scenario.skypeToken
                    0 hostA [] [answer] [] answer (locationOf hostA) TOKEN_HEADER
                    eq_refl Hexp Hloc Hhost Htok)).
  - vm_compute. reflexivity.
Defined.

(** With [retries = -1] the token that the server would give is not asked
    for. *)
Lemma registerEndpoint_negative_retries_witness :
  run (-1) [created hostA (Some TOKEN_HEADER)] =
    {| result := Throw (EndpointRegistrationError
                          (EndpointRedirectionsLimit []) ERROR_MESSAGE);
       attempts := [];
       world := [created hostA (Some TOKEN_HEADER)] |}.
Proof.
  assert (Hneg : -1 < 0) by lia.
  exact (registerEndpoint_negative_retries Scenario.io jar Scenario.skypeToken
           hostA (-1) [created hostA (Some TOKEN_HEADER)] Hneg).
Defined.

(** Scenario A with five retries is scenario A without retry. *)
Lemma registerEndpoint_more_retries_witness :
  run 5 [created hostA (Some TOKEN_HEADER)] = run 0 [created hostA (Some TOKEN_HEADER)].
Proof.
  assert (Hle : 0 <= 5) by lia.
  apply (registerEndpoint_more_retries Scenario.io jar Scenario.skypeToken
           hostA 0 5 [created hostA (Some TOKEN_HEADER)] Hle).
  intros t message. vm_compute. discriminate.
Defined.

(** After the redirection of scenario D, one more retry adds one try. *)
Lemma registerEndpoint_attempts_prefix_witness :
  attempts (run 0 [redirectToB]) `prefix_of` attempts (run 1 [redirectToB]).
Proof.
  assert (Hle : 0 <= 1) by lia.
  exact (registerEndpoint_attempts_prefix Scenario.io jar Scenario.skypeToken
           hostA 0 1 [redirectToB] Hle).
Defined.

(** The rate limit after a redirection: the cause holds the two tries. *)
Lemma registerEndpoint_rate_limited_last_witness :
  [{| req := request hostA; res := redirectToB |};
   {| req := request hostB; res := rateLimited |}] =
    attempts (run 2 [redirectToB; rateLimited]).
Proof.
  refine (proj1 (registerEndpoint_rate_limited_last Scenario.io jar Scenario.skypeToken
                   hostA 2 [redirectToB; rateLimited] _ ERROR_MESSAGE _)).
  vm_compute. reflexivity.
Defined.

(** The server error of the scenario of C7 is the last try. *)
Lemma registerEndpoint_unexpected_status_last_witness :
  exists before,
    attempts (run 2 [serverError]) =
      before ++ [{| req := request hostA; res := serverError |}].
Proof.
  assert (Hres : result (run 2 [serverError]) =
                   Throw (EndpointRegistrationError
                            (UnexpectedHttpStatus serverError {[ 201; 301 ]}
                               (request hostA)) ERROR_MESSAGE))
    by (vm_compute; reflexivity).
  exact (proj2 (proj2 (proj2 (proj2 (proj2
           (registerEndpoint_unexpected_status_last Scenario.io jar Scenario.skypeToken
              hostA 2 [serverError] serverError {[ 201; 301 ]} (request hostA)
              ERROR_MESSAGE Hres)))))).
Defined.

(** After a Location without host, a 201 without token whose Location has
    no host either: the header is missing at the hostname [null]. *)
Lemma registerEndpoint_missing_header_last_witness :
  expectedStatus (statusCode (createdAtPath None))
  /\ (exists before,
         attempts (run 2 [redirectToPath; createdAtPath None]) =
           before ++ [{| req := request NullHost; res := createdAtPath None |}])
  /\ exists locationHeader hostname,
      headers (createdAtPath None) !! "location" = Some locationHeader
      /\ url_host (parseUri locationHeader) = Some hostname
      /\ uri (request NullHost) = endpoints hostname.
Proof.
  assert (Hres : result (run 2 [redirectToPath; createdAtPath None]) =
                   Throw (EndpointRegistrationError
                            (MissingHeader (createdAtPath None) "Set-Registrationtoken"
                               (request NullHost)) ERROR_MESSAGE))
    by (vm_compute; reflexivity).
  destruct (registerEndpoint_missing_header_last Scenario.io jar Scenario.skypeToken
              hostA 2 [redirectToPath; createdAtPath None] (createdAtPath None)
              "Set-Registrationtoken" (request NullHost) ERROR_MESSAGE Hres)
    as (Hexp & Hlast & [[Hname _] | (_ & _ & Hhost)]).
  - discriminate Hname.
  - split; [exact Hexp |]. split; [exact Hlast | exact Hhost].
Defined.

(** The redirection to a path does not make the call throw ParseError. *)
Lemma registerEndpoint_parse_error_unreachable_witness :
  result (run 2 [redirectToPath]) <> Throw (ParseError "Expected location to define host").
Proof.
  apply (registerEndpoint_parse_error_unreachable Scenario.io jar Scenario.skypeToken
           hostA 2 [redirectToPath] "Expected location to define host").
  intros u. discriminate.
Defined.

(** After a Location without host, a 201 whose Location has no host
    either and whose token header has the token only. *)
Lemma registerEndpoint_invalid_header_last_witness :
  (utils.parseHeaderParams "registrationToken=abc" !! "registrationToken" = None
   \/ utils.parseHeaderParams "registrationToken=abc" !! "expires" = None
   \/ utils.parseHeaderParams "registrationToken=abc" !! "endpointId" = None)
  /\ exists before request response locationHeader hostname,
      attempts (run 2 [redirectToPath; createdAtPath (Some "registrationToken=abc")]) =
        before ++ [{| req := request; res := response |}]
      /\ expectedStatus (statusCode response)
      /\ headers response !! "location" = Some locationHeader
      /\ url_host (parseUri locationHeader) = Some hostname
      /\ uri request = endpoints hostname
      /\ headers response !! "set-registrationtoken" = Some "registrationToken=abc".
Proof.
  assert (Hres : result (run 2 [redirectToPath;
                                createdAtPath (Some "registrationToken=abc")]) =
                   Throw (InvalidSetRegistrationTokenHeader "registrationToken=abc"
                            (utils.parseHeaderParams "registrationToken=abc")))
    by (vm_compute; reflexivity).
  exact (proj2 (registerEndpoint_invalid_header_last Scenario.io jar
                  Scenario.skypeToken hostA 2
                  [redirectToPath; createdAtPath (Some "registrationToken=abc")]
                  "registrationToken=abc"
                  (utils.parseHeaderParams "registrationToken=abc") Hres)).
Defined.

(** An expires of 9 000 000 000 000 seconds is past the last date. *)
Lemma readSetRegistrationTokenHeader_decimal_expires_witness :
  exists tok,
    readSetRegistrationTokenHeader (imports := Scenario.imports) hostA
      "registrationToken=abc; expires=9000000000000; endpointId={e1}" = Return tok
    /\ expirationDate tok = InvalidDate.
Proof.
  refine (readSetRegistrationTokenHeader_decimal_expires
            Scenario.World Scenario.imports hostA
            "registrationToken=abc; expires=9000000000000; endpointId={e1}"
            "abc" "{e1}" 9000000000000 _ _ _).
  - vm_compute. reflexivity.
  - vm_compute. reflexivity.
  - vm_compute. reflexivity.
Defined.

(** The time of the scenarios, written and read back. *)
Lemma parseInt10_pretty_witness :
  parseInt10 (pretty 1510444800) = Finite 1510444800.
Proof.
  apply parseInt10_pretty. reflexivity.
Defined.
